(** * slappy: the message-dispatch core of a Slack bot framework

    A shallow embedding of [slappy/__init__.py]: [Message], [Listener],
    [Dispatcher] and the message path of [Bot], together with the part of
    Python's [re] module that the dispatcher relies on.

    Modelling decisions.
    - Python [str] is [string].  The character classes and the case
      folding of the matcher are those of [re] on code points below 128
      only: [re] is Unicode-aware on [str] patterns, so every statement
      about what the matcher finds in a text is made for ASCII texts and
      patterns ([Text.ascii_only]), where the two agree.  Statements that
      take the result of a match as a hypothesis need no such scope.  The
      two fixed reply texts of the source are not ASCII: they are kept as
      the bytes of the source literal and only ever travel inside a reply.
    - A pattern is kept in parsed form ([Re.regex]); [re.match] is a
      backtracking matcher over that form.
    - A Python [dict] with string keys is a [gmap string PyVal].
    - Code that calls the Slack client or a user handler runs in the monad
      [M]: the state is the chronological list of [api_call]s made so far,
      and a computation either returns or raises.  Handlers are arbitrary
      functions in [M].
    - Only exceptions deriving from [Exception] are modelled; an exception
      is its class name and its [str] form.
    - [str.format] on an arbitrary value is an interface ([PyFormat]). *)

From Stdlib Require Import Ascii String.
From stdpp Require Import gmap strings list pretty.

Local Open Scope string_scope.
Local Open Scope nat_scope.

(* ===================================================================== *)
(** ** Python's [re] on parsed patterns *)
(* ===================================================================== *)

Module Re.

(** Parsed patterns.  [Group] is a capturing group; groups are numbered
    by the position of their opening parenthesis, as [re] does. *)
Inductive regex : Type :=
| Eps                      (* the empty pattern, also (?:)        *)
| Lit (c : ascii)          (* an escaped or ordinary character    *)
| Dot                      (* .  (no DOTALL: anything but \n)     *)
| Word                     (* \w                                  *)
| Space                    (* \s                                  *)
| Bol                      (* ^  (no MULTILINE: start of string)  *)
| Cat (r1 r2 : regex)
| Alt (r1 r2 : regex)      (* r1|r2, tried left to right          *)
| Opt (r : regex)          (* r?  greedy                          *)
| Star (r : regex)         (* r*  greedy                          *)
| Plus (r : regex)         (* r+  greedy                          *)
| Group (r : regex).       (* (r)                                 *)

Definition code (c : ascii) : nat := nat_of_ascii c.

Definition between (lo hi n : nat) : bool := (lo <=? n) && (n <=? hi).

(** [\w] on code points below 128: [a-zA-Z0-9_]. *)
Definition is_word (c : ascii) : bool :=
  between 48 57 (code c) || between 65 90 (code c)
  || between 97 122 (code c) || (code c =? 95).

(** [\s] on code points below 128: [ \t\n\r\f\v] and the separators
    0x1c..0x1f, which [str.isspace] accepts. *)
Definition is_space (c : ascii) : bool :=
  between 9 13 (code c) || between 28 31 (code c) || (code c =? 32).

Definition newline : ascii := ascii_of_nat 10.

Definition not_newline (c : ascii) : bool := negb (Ascii.eqb c newline).

(** Case folding used by IGNORECASE on code points below 128. *)
Definition lower (c : ascii) : ascii :=
  if between 65 90 (code c) then ascii_of_nat (code c + 32) else c.

Definition chr_eq (ic : bool) (c d : ascii) : bool :=
  if ic then Ascii.eqb (lower c) (lower d) else Ascii.eqb c d.

Fixpoint ngroups (r : regex) : nat :=
  match r with
  | Eps | Lit _ | Dot | Word | Space | Bol => 0
  | Cat r1 r2 | Alt r1 r2 => ngroups r1 + ngroups r2
  | Opt r1 | Star r1 | Plus r1 => ngroups r1
  | Group r1 => S (ngroups r1)
  end.

(** Matcher state: the number of characters consumed, what is left of
    the subject, and the groups captured so far ([None]: the group did
    not take part in the match). *)
Record state : Type := mkState {
  pos : nat;
  rest : string;
  caps : list (option string)
}.

Fixpoint take_str (n : nat) (s : string) : string :=
  match n, s with
  | S n', String c s' => String c (take_str n' s')
  | _, _ => ""
  end.

(** The text between two states of the same run. *)
Definition captured (s0 s1 : state) : string :=
  take_str (pos s1 - pos s0) (rest s0).

Definition set_cap (i : nat) (s0 s1 : state) : state :=
  mkState (pos s1) (rest s1) (<[i := Some (captured s0 s1)]> (caps s1)).

Section Matcher.
Context {A : Type}.
Variable ic : bool.                   (* flags=re.IGNORECASE *)

Definition cont : Type := state -> option A.

Definition orelse (x : option A) (y : option A) : option A :=
  match x with Some a => Some a | None => y end.

(** Consume one character satisfying [p]. *)
Definition step (p : ascii -> bool) (k : cont) (s : state) : option A :=
  match rest s with
  | String c t => if p c then k (mkState (S (pos s)) t (caps s)) else None
  | EmptyString => None
  end.

(** Greedy repetition: try one more round of [body], and fall back to
    the continuation.  A round that consumes nothing is accepted, groups
    included, but ends the repetition; every other round consumes a
    character, so [fuel = S (length (rest s))] rounds always suffice. *)
Fixpoint star_loop (body : cont -> cont) (k : cont) (fuel : nat)
    (s : state) : option A :=
  match fuel with
  | O => k s
  | S n =>
      orelse
        (body (fun s' => if pos s <? pos s'
                         then star_loop body k n s' else k s') s)
        (k s)
  end.

(** [rmatch i r k s]: match [r], whose first group has index [i],
    at [s], then continue with [k]; alternatives are explored in
    [re]'s order and the first overall success is returned. *)
Fixpoint rmatch (i : nat) (r : regex) (k : cont) (s : state) : option A :=
  match r with
  | Eps => k s
  | Lit c => step (chr_eq ic c) k s
  | Dot => step not_newline k s
  | Word => step is_word k s
  | Space => step is_space k s
  | Bol => if pos s =? 0 then k s else None
  | Cat r1 r2 => rmatch i r1 (rmatch (i + ngroups r1) r2 k) s
  | Alt r1 r2 => orelse (rmatch i r1 k s) (rmatch (i + ngroups r1) r2 k s)
  | Opt r1 => orelse (rmatch i r1 k s) (k s)
  | Star r1 => star_loop (rmatch i r1) k (S (String.length (rest s))) s
  | Plus r1 =>
      rmatch i r1
        (fun s' =>
           star_loop (rmatch i r1) k (S (String.length (rest s'))) s') s
  | Group r1 => rmatch (S i) r1 (fun s' => k (set_cap i s s')) s
  end.
End Matcher.

(** A match object, as far as the dispatcher looks at it. *)
Record Match : Type := mkMatch { groups : list (option string) }.

(** [m.group(n)] for [1 <= n]; [None] is Python's [None]. *)
Definition group (m : Match) (n : nat) : option string :=
  match groups m !! (n - 1) with Some g => g | None => None end.

(** [re.match(r, text, flags)]: anchored at the start of [text], free at
    the end. *)
Definition re_match (ic : bool) (r : regex) (text : string) : option Match :=
  rmatch ic 0 r (fun s => Some (mkMatch (caps s)))
    (mkState 0 text (replicate (ngroups r) None)).

(** The pattern of a literal string, as [re.escape] makes it. *)
Fixpoint lit (s : string) : regex :=
  match s with
  | EmptyString => Eps
  | String c s' => Cat (Lit c) (lit s')
  end.

(** ['|'.join] of the patterns [rs]. *)
Fixpoint alts (rs : list regex) : regex :=
  match rs with
  | [] => Eps
  | [r] => r
  | r :: rs' => Alt r (alts rs')
  end.

End Re.

(* ===================================================================== *)
(** ** Python values, exceptions and effects *)
(* ===================================================================== *)

(** The values a handler may hand back, and the values found in payloads
    and in keyword arguments. *)
#[warnings="-register-all"]
Inductive PyVal : Type :=
| PNone
| PBool (b : bool)
| PInt (z : Z)
| PStr (s : string)
| PList (l : list PyVal)
| PDict (d : gmap string PyVal).

(** Truth value of an object, as [if result:] tests it. *)
Definition truthy (v : PyVal) : bool :=
  match v with
  | PNone => false
  | PBool b => b
  | PInt z => negb (Z.eqb z 0)
  | PStr s => negb (String.eqb s "")
  | PList l => match l with [] => false | _ :: _ => true end
  | PDict d => negb (size d =? 0)
  end.

(** [v == s] for a string constant [s]. *)
Definition py_eq_str (v : PyVal) (s : string) : bool :=
  match v with
  | PStr t => String.eqb t s
  | _ => false
  end.

(** ['{}'.format(v)] belongs to the interpreter; the model takes it as an
    interface. *)
Class PyFormat : Type := py_format : PyVal -> string.

(** An exception: its class and what [str(e)] gives. *)
Record exn : Type := mkExn { exn_class : string; exn_str : string }.

Definition Exception (msg : string) : exn := mkExn "Exception" msg.
Definition KeyError (key : string) : exn :=
  mkExn "KeyError" ("'" +:+ key +:+ "'").
Definition TypeError (msg : string) : exn := mkExn "TypeError" msg.

(** One [sc.api_call] with its method and its keywords. *)
Record Call : Type := mkCall {
  c_method : string;
  c_args : gmap string PyVal
}.

(** What the Slack client answers: [result['ok']] and [str(result)]. *)
Record Response : Type := mkResponse { ok : bool; shown : string }.

(** The Slack client: its answer may depend on the calls made before. *)
Record SlackClient : Type := mkClient {
  respond : list Call -> Call -> Response
}.

Inductive outcome (A : Type) : Type :=
| Returned (a : A)
| Raised (e : exn).
Arguments Returned {A} a.
Arguments Raised {A} e.

(** Computations over the log of calls made so far. *)
Definition M (A : Type) : Type := list Call -> outcome A * list Call.

Definition ret {A : Type} (a : A) : M A := fun w => (Returned a, w).

Definition raise {A : Type} (e : exn) : M A := fun w => (Raised e, w).

Definition bind {A B : Type} (m : M A) (k : A -> M B) : M B :=
  fun w =>
    match m w with
    | (Returned a, w') => k a w'
    | (Raised e, w') => (Raised e, w')
    end.

(** [try: m  except Exception as e: h e]. *)
Definition try_except {A : Type} (m : M A) (h : exn -> M A) : M A :=
  fun w =>
    match m w with
    | (Returned a, w') => (Returned a, w')
    | (Raised e, w') => h e w'
    end.

#[export] Instance M_ret : MRet M := @ret.
#[export] Instance M_bind : MBind M := fun A B k m => bind m k.

(** [d[k]]. *)
Definition getitem (d : gmap string PyVal) (k : string) : M PyVal :=
  match d !! k with
  | Some v => ret v
  | None => raise (KeyError k)
  end.

Definition api_call (sc : SlackClient) (method : string)
    (args : gmap string PyVal) : M Response :=
  fun w => let c := mkCall method args in (Returned (respond sc w c), (w ++ [c])%list).

(* ===================================================================== *)
(** ** class Message *)
(* ===================================================================== *)

Module Message.

Record t : Type := mk {
  body : gmap string PyVal;
  sc : SlackClient
}.

Definition is_text_message (self : t) : bool :=
  match body self !! "type" with
  | Some ty =>
      if negb (py_eq_str ty "message") then false
      else match body self !! "text" with
           | None => false
           | Some _ => true
           end
  | None => false
  end.

Definition channel_id (self : t) : M PyVal := getitem (body self) "channel".

(** [reply(self, text, kwargs)], [kwargs] being the extra keywords. *)
Definition reply (self : t) (text : PyVal) (kwargs : gmap string PyVal)
    : M unit :=
  let args := kwargs in
  let args := <["text" := text]> args in
  ch ← channel_id self;
  let args := <["channel" := ch]> args in
  let args := match body self !! "thread_ts" with
              | Some ts => <["thread_ts" := ts]> args
              | None => args
              end in
  result ← api_call (sc self) "chat.postMessage" args;
  if negb (ok result) then raise (Exception (shown result)) else ret tt.

(** The call [self.reply] with the keywords [kw]: the interpreter binds the keywords to
    the parameters of [reply] before its body runs. *)
Definition reply_kw (self : t) (kw : gmap string PyVal) : M unit :=
  match kw !! "self" with
  | Some _ =>
      raise (TypeError "reply() got multiple values for argument 'self'")
  | None =>
      match kw !! "text" with
      | None =>
          raise (TypeError
                   "reply() missing 1 required positional argument: 'text'")
      | Some text => reply self text (delete "text" kw)
      end
  end.

End Message.

(* ===================================================================== *)
(** ** class Listener *)
(* ===================================================================== *)

Module Listener.

Record t : Type := mk {
  regex : Re.regex;
  f : Message.t -> list (option string) -> M PyVal;
  mention_only : bool
}.

Definition match_ (self : t) (text : string) : option Re.Match :=
  Re.re_match true (regex self) text.

Definition process {fmt : PyFormat} (self : t) (msg : Message.t)
    (m : Re.Match) : M unit :=
  result ← f self msg (Re.groups m);
  match result with
  | PStr s => Message.reply msg (PStr s) ∅
  | PDict d => Message.reply_kw msg d
  | _ =>
      if truthy result
      then raise (Exception ("Bad listener result: " +:+ py_format result))
      else ret tt
  end.

End Listener.

Module Action.
Record t : Type := mk {
  regex : Re.regex;
  f : gmap string PyVal -> list (option string) -> M PyVal
}.
End Action.

Module Command.
Record t : Type := mk {
  f : gmap string PyVal -> M PyVal
}.
End Command.

(* ===================================================================== *)
(** ** class Dispatcher *)
(* ===================================================================== *)

Module Dispatcher.

Record t : Type := mk {
  listeners : list Listener.t;
  actions : list Action.t;
  commands : gmap string Command.t;
  alt_names : list string;
  bot_id : string
}.

(** [Dispatcher(bot_id, alt_names)]. *)
Definition init (bot_id : string) (alt_names : list string) : t :=
  mk [] [] ∅ alt_names bot_id.

Definition register_listener (self : t) (listener : Listener.t) : t :=
  mk (listeners self ++ [listener])%list (actions self) (commands self)
     (alt_names self) (bot_id self).

Definition register_action (self : t) (regex : Re.regex)
    (f : gmap string PyVal -> list (option string) -> M PyVal) : t :=
  mk (listeners self) (actions self ++ [Action.mk regex f])%list (commands self)
     (alt_names self) (bot_id self).

(** Registration happens at start-up, outside any dispatch: it either
    raises or gives the updated dispatcher. *)
Definition register_command (self : t) (name : string)
    (f : gmap string PyVal -> M PyVal) : exn + t :=
  match commands self !! name with
  | Some _ => inl (Exception ("Duplicate command " +:+ name))
  | None =>
      inr (mk (listeners self) (actions self)
              (<[name := Command.mk f]> (commands self))
              (alt_names self) (bot_id self))
  end.

Definition bad_subject : exn :=
  TypeError "expected string or bytes-like object".

Fixpoint scan_actions (payload : gmap string PyVal) (acts : list Action.t)
    : M PyVal :=
  match acts with
  | [] => raise (Exception "unknown action")
  | action :: acts' =>
      cb ← getitem payload "callback_id";
      match cb with
      | PStr callback_id =>
          match Re.re_match false (Action.regex action) callback_id with
          | None => scan_actions payload acts'
          | Some m => Action.f action payload (Re.groups m)
          end
      | _ => raise bad_subject
      end
  end.

Definition process_action (self : t) (payload : gmap string PyVal)
    : M PyVal :=
  scan_actions payload (actions self).

(** The pattern [<@(\w+)>,?\s*] followed by a group holding [.*] *)
Definition mention_re : Re.regex :=
  Re.Cat (Re.Lit "<") (Re.Cat (Re.Lit "@") (Re.Cat (Re.Group (Re.Plus Re.Word))
    (Re.Cat (Re.Lit ">") (Re.Cat (Re.Opt (Re.Lit ","))
      (Re.Cat (Re.Star Re.Space) (Re.Group (Re.Star Re.Dot))))))).

(** The alternation of the escaped names, then [,\s*] and a group holding [.*] *)
Definition alt_names_re (names : list string) : Re.regex :=
  Re.Cat (Re.alts (map Re.lit names))
    (Re.Cat (Re.Lit ",") (Re.Cat (Re.Star Re.Space) (Re.Group (Re.Star Re.Dot)))).

(** The second component is [None] where Python would hold [None]. *)
Definition parse_mention (self : t) (text : string) : bool * option string :=
  let by_name :=
    match alt_names self with
    | [] => (false, Some text)
    | _ :: _ =>
        match Re.re_match true (alt_names_re (alt_names self)) text with
        | Some mention_match => (true, Re.group mention_match 1)
        | None => (false, Some text)
        end
    end in
  match Re.re_match false mention_re text with
  | Some mention_match =>
      let user_id := Re.group mention_match 1 in
      let short_text := Re.group mention_match 2 in
      if bool_decide (user_id = Some (bot_id self))
      then (true, short_text)
      else by_name
  | None => by_name
  end.

Definition fallback_text : string := "Не понимаю.".

(** The [for listener in self.listeners] loop and what follows it. *)
Fixpoint scan {fmt : PyFormat} (msg : Message.t) (mentioned direct : bool)
    (text : option string) (ls : list Listener.t) : M unit :=
  match ls with
  | [] =>
      if mentioned || direct
      then Message.reply msg (PStr fallback_text) ∅
      else ret tt
  | listener :: ls' =>
      if Listener.mention_only listener && (negb mentioned && negb direct)
      then scan msg mentioned direct text ls'
      else
        match text with
        | None => raise bad_subject
        | Some txt =>
            match Listener.match_ listener txt with
            | None => scan msg mentioned direct text ls'
            | Some m => Listener.process listener msg m
            end
        end
  end.

Definition process_message {fmt : PyFormat} (self : t) (msg : Message.t)
    : M unit :=
  if negb (Message.is_text_message msg) then ret tt
  else
    text ← getitem (Message.body msg) "text";
    match text with
    | PStr text =>
        let '(mentioned, text) := parse_mention self text in
        channel_type ← getitem (Message.body msg) "channel_type";
        let direct := py_eq_str channel_type "app_home" in
        scan msg mentioned direct text (listeners self)
    | _ => raise bad_subject
    end.

End Dispatcher.

(* ===================================================================== *)
(** ** class Bot: the message path *)
(* ===================================================================== *)

Module Bot.

(** [cleanup_on_exception] is the overridable hook; its default body is
    [pass]. *)
Record t : Type := mk {
  sc : SlackClient;
  dispatcher : Dispatcher.t;
  cleanup_on_exception : M unit
}.

Definition default_cleanup : M unit := ret tt.

Definition error_text (e : exn) : string :=
  "Что-то пошло не так: ```" +:+ exn_str e +:+ "```".

(** [traceback.print_exc()] writes to the process's stderr only and is
    left out. *)
Definition process_message {fmt : PyFormat} (self : t) (msg : gmap string PyVal)
    : M unit :=
  match msg !! "bot_id" with
  | Some _ => ret tt
  | None =>
      let msg := Message.mk msg (sc self) in
      try_except
        (Dispatcher.process_message (dispatcher self) msg)
        (fun e =>
           cleanup_on_exception self;;
           Message.reply msg (PStr (error_text e)) ∅)
  end.

End Bot.

(* ===================================================================== *)
(** ** Plain string functions used to state what the matcher returns *)
(* ===================================================================== *)

Module Text.

Fixpoint take_while (p : ascii -> bool) (s : string) : string :=
  match s with
  | String c t => if p c then String c (take_while p t) else ""
  | EmptyString => ""
  end.

Fixpoint drop_while (p : ascii -> bool) (s : string) : string :=
  match s with
  | String c t => if p c then drop_while p t else s
  | EmptyString => ""
  end.




(** [strip_prefix ic p s]: what is left of [s] after the prefix [p],
    compared character by character as the matcher compares literals. *)
Fixpoint strip_prefix (ic : bool) (p s : string) : option string :=
  match p with
  | EmptyString => Some s
  | String c p' =>
      match s with
      | String d s' => if Re.chr_eq ic c d then strip_prefix ic p' s' else None
      | EmptyString => None
      end
  end.

Definition strip_comma (s : string) : string :=
  match s with
  | String c t => if Ascii.eqb "," c then t else s
  | EmptyString => ""
  end.

(** Leading white space removed, then cut at the first line break. *)
Definition residual (s : string) : string :=
  take_while Re.not_newline (drop_while Re.is_space s).

End Text.

(** What the explicit-id pattern finds: the id and the residual text. *)
Definition explicit_mention (text : string) : option (string * string) :=
  match Text.strip_prefix false "<@" text with
  | Some t =>
      match Text.take_while Re.is_word t, Text.drop_while Re.is_word t with
      | String c w, String d t2 =>
          if Ascii.eqb ">" d
          then Some (String c w, Text.residual (Text.strip_comma t2))
          else None
      | _, _ => None
      end
  | None => None
  end.

(** What the alternate-name pattern finds: the residual text after the
    first name, in list order, that the text starts with and that a comma
    follows. *)
Fixpoint alt_mention (names : list string) (text : string) : option string :=
  match names with
  | [] => None
  | name :: names' =>
      match Text.strip_prefix true name text with
      | Some (String c t) =>
          if Ascii.eqb "," c then Some (Text.residual t)
          else alt_mention names' text
      | _ => alt_mention names' text
      end
  end.

(** Greedy repetition of a one-character pattern, by recursion on the
    subject: longest run first, then shorter ones. *)
Fixpoint greedy {A : Type} (p : ascii -> bool) (k : Re.state -> option A)
    (n : nat) (cs : list (option string)) (s : string) : option A :=
  match s with
  | String c t =>
      if p c
      then Re.orelse (greedy p k (S n) cs t) (k (Re.mkState n s cs))
      else k (Re.mkState n s cs)
  | EmptyString => k (Re.mkState n "" cs)
  end.

(** Patterns shared by the two mention forms, and the continuation that
    ends a match. *)
Definition final (s : Re.state) : option Re.Match :=
  Some (Re.mkMatch (Re.caps s)).

Definition rest_re : Re.regex :=
  Re.Cat (Re.Star Re.Space) (Re.Group (Re.Star Re.Dot)).

Definition tail_re : Re.regex := Re.Cat (Re.Opt (Re.Lit ",")) rest_re.

Definition comma_re : Re.regex := Re.Cat (Re.Lit ",") rest_re.

(* ===================================================================== *)
(** ** Vocabulary of the statements *)
(* ===================================================================== *)

(** The mention-only gate of the listener loop. *)
Definition skipped (l : Listener.t) (mentioned direct : bool) : bool :=
  Listener.mention_only l && (negb mentioned && negb direct).

(** A listener fires on [txt] when the gate lets it through and its
    pattern matches. *)
Definition fires (l : Listener.t) (mentioned direct : bool) (txt : string)
    : option Re.Match :=
  if skipped l mentioned direct then None else Listener.match_ l txt.

Definition with_listeners (d : Dispatcher.t) (ls : list Listener.t)
    : Dispatcher.t :=
  Dispatcher.mk ls (Dispatcher.actions d) (Dispatcher.commands d)
    (Dispatcher.alt_names d) (Dispatcher.bot_id d).

(** The keywords of the [chat.postMessage] call that [reply] makes for a
    message in channel [ch]. *)
Definition reply_args (msg : Message.t) (text : PyVal)
    (kwargs : gmap string PyVal) (ch : PyVal) : gmap string PyVal :=
  let args := <["channel" := ch]> (<["text" := text]> kwargs) in
  match Message.body msg !! "thread_ts" with
  | Some ts => <["thread_ts" := ts]> args
  | None => args
  end.

Definition reply_call (msg : Message.t) (text : PyVal)
    (kwargs : gmap string PyVal) (ch : PyVal) : Call :=
  mkCall "chat.postMessage" (reply_args msg text kwargs ch).

(** What [reply] returns once the call [c] is logged after [w]. *)
Definition reply_outcome (msg : Message.t) (w : list Call) (c : Call)
    : outcome unit :=
  let result := respond (Message.sc msg) w c in
  if ok result then Returned tt else Raised (Exception (shown result)).

(** Neither [str] nor [dict]. *)
Definition other_type (v : PyVal) : bool :=
  match v with
  | PStr _ | PDict _ => false
  | _ => true
  end.


(* ===================================================================== *)
(** ** Sample bots and events *)
(* ===================================================================== *)

(** Renders the scalars that the samples hand back; no sample formats a
    container. *)
Definition scalar_format : PyFormat :=
  fun v =>
    match v with
    | PNone => "None"
    | PBool true => "True"
    | PBool false => "False"
    | PInt z => pretty z
    | PStr s => s
    | PList _ => "[...]"
    | PDict _ => "{...}"
    end.

Definition ok_client : SlackClient :=
  mkClient (fun _ _ => mkResponse true "{'ok': True}").

(** A handler that only hands back [v]. *)
Definition says (v : PyVal) : Message.t -> list (option string) -> M PyVal :=
  fun _ _ => ret v.

(** A handler that raises. *)
Definition fails (e : exn) : Message.t -> list (option string) -> M PyVal :=
  fun _ _ => raise e.

Definition text_event (text channel_type : string) : gmap string PyVal :=
  <["type" := PStr "message"]> (<["text" := PStr text]>
  (<["channel" := PStr "C1"]> (<["channel_type" := PStr channel_type]>
  (<["user" := PStr "U7"]> (<["ts" := PStr "1.0"]> ∅))))).

Definition sample_msg (text channel_type : string) : Message.t :=
  Message.mk (text_event text channel_type) ok_client.

Definition hi_re : Re.regex := Re.Cat Re.Bol (Re.lit "hi").

Definition L_one : Listener.t := Listener.mk hi_re (says (PStr "one")) true.
Definition L_two : Listener.t := Listener.mk hi_re (says (PStr "two")) false.
Definition L_bye : Listener.t :=
  Listener.mk (Re.lit "bye") (says (PStr "bye")) false.

Definition sample_dispatcher (ls : list Listener.t) : Dispatcher.t :=
  with_listeners (Dispatcher.init "U123" ["bob"]) ls.


Definition sample_match : Re.Match := Re.mkMatch [].

Definition L_zero : Listener.t := Listener.mk hi_re (says (PInt 0)) false.
Definition L_five : Listener.t := Listener.mk hi_re (says (PInt 5)) false.
Definition L_boom : Listener.t :=
  Listener.mk hi_re (fails (Exception "boom")) false.

Definition dict_xy : gmap string PyVal :=
  <["text" := PStr "x"]> (<["icon" := PStr "y"]> ∅).
Definition dict_other_channel : gmap string PyVal :=
  <["text" := PStr "x"]> (<["channel" := PStr "C9"]> ∅).
Definition dict_no_text : gmap string PyVal := <["icon" := PStr "y"]> ∅.

(** A handler of interactive payloads that only hands back [v]. *)
Definition answers (v : PyVal)
    : gmap string PyVal -> list (option string) -> M PyVal :=
  fun _ _ => ret v.

Definition action_payload (callback_id : string) : gmap string PyVal :=
  <["callback_id" := PStr callback_id]> (<["token" := PStr "t0"]> ∅).

Definition sample_actions : Dispatcher.t :=
  Dispatcher.register_action
    (Dispatcher.register_action (Dispatcher.init "U123" [])
       (Re.lit "approve") (answers (PStr "approved")))
    (Re.lit "app") (answers (PStr "other")).

Definition command_handler (v : PyVal) : gmap string PyVal -> M PyVal :=
  fun _ => ret v.

Definition sample_bot (ls : list Listener.t) : Bot.t :=
  Bot.mk ok_client (sample_dispatcher ls) Bot.default_cleanup.

(* ===================================================================== *)
(** ** The rest of [Message], and [helpers.py] *)
(* ===================================================================== *)

(** [response[key]] for the keys other than ['ok']: what else an answer of
    the Slack client holds is the client's, and is taken as an
    interface. *)
Class ResponseItems : Type := resp_item : Response -> string -> option PyVal.

(** [str(v)] of the argument of an exception. *)
Definition py_str {fmt : PyFormat} (v : PyVal) : string :=
  match v with
  | PStr s => s
  | _ => py_format v
  end.

(** [response[k]]. *)
Definition getresp {items : ResponseItems} (response : Response) (k : string)
    : M PyVal :=
  match resp_item response k with
  | Some v => ret v
  | None => raise (KeyError k)
  end.

(** [raise Exception(response['error'])]. *)
Definition raise_error {fmt : PyFormat} {items : ResponseItems} {A : Type}
    (response : Response) : M A :=
  e ← getresp response "error";
  raise (Exception (py_str e)).

Module Helpers.

Record Channel : Type := mkChannel { channel_data : PyVal }.

Record User : Type := mkUser { user_data : PyVal }.

Definition get_channel {fmt : PyFormat} {items : ResponseItems}
    (sc : SlackClient) (channel_id : PyVal) : M Channel :=
  response ← api_call sc "channels.info" (<["channel" := channel_id]> ∅);
  if negb (ok response) then raise_error response
  else
    data ← getresp response "channel";
    ret (mkChannel data).

(** [User(response['user'])] passes one argument to a constructor that
    takes two ([sc] and [data]): the interpreter refuses the call. *)
Definition get_user {fmt : PyFormat} {items : ResponseItems}
    (sc : SlackClient) (user_id : PyVal) : M User :=
  response ← api_call sc "users.info" (<["user" := user_id]> ∅);
  if negb (ok response) then raise_error response
  else
    _ ← getresp response "user";
    raise (TypeError "__init__() missing 1 required positional argument: 'data'").

End Helpers.

Module MessageMore.

Definition user_id (self : Message.t) : M PyVal :=
  getitem (Message.body self) "user".

(** The keywords are evaluated left to right: [name], [channel],
    [timestamp]. *)
Definition react {fmt : PyFormat} {items : ResponseItems}
    (self : Message.t) (emoji : PyVal) : M unit :=
  ch ← Message.channel_id self;
  ts ← getitem (Message.body self) "ts";
  result ← api_call (Message.sc self) "reactions.add"
             (<["name" := emoji]> (<["channel" := ch]>
                (<["timestamp" := ts]> ∅)));
  if negb (ok result) then raise_error result else ret tt.

(** [None] stands for Python's [None] (channel types other than
    ['channel'] are not looked up). *)
Definition channel {fmt : PyFormat} {items : ResponseItems}
    (self : Message.t) : M (option Helpers.Channel) :=
  channel_type ← getitem (Message.body self) "channel_type";
  if py_eq_str channel_type "channel"
  then
    cid ← Message.channel_id self;
    c ← Helpers.get_channel (Message.sc self) cid;
    ret (Some c)
  else ret None.

Definition user {fmt : PyFormat} {items : ResponseItems}
    (self : Message.t) : M Helpers.User :=
  uid ← user_id self;
  Helpers.get_user (Message.sc self) uid.

End MessageMore.

(* ===================================================================== *)
(** ** The rest of [Dispatcher] and of [Bot] *)
(* ===================================================================== *)

Module DispatcherMore.

(** [command not in self.commands] hashes [command]: a list or a dict
    cannot be hashed, and any other value that is not a string is not a
    key of the map. *)
Definition process_command {fmt : PyFormat} (self : Dispatcher.t)
    (payload : gmap string PyVal) : M PyVal :=
  command ← getitem payload "command";
  match command with
  | PStr name =>
      match Dispatcher.commands self !! name with
      | None => raise (Exception ("Command " +:+ name +:+ " not found"))
      | Some c => Command.f c payload
      end
  | PList _ => raise (TypeError "unhashable type: 'list'")
  | PDict _ => raise (TypeError "unhashable type: 'dict'")
  | _ => raise (Exception ("Command " +:+ py_format command +:+ " not found"))
  end.

End DispatcherMore.


Module BotMore.

Definition with_dispatcher (self : Bot.t) (d : Dispatcher.t) : Bot.t :=
  Bot.mk (Bot.sc self) d (Bot.cleanup_on_exception self).

(** The decorators, as registration calls. *)
Definition listen_to (self : Bot.t) (regex : Re.regex)
    (f : Message.t -> list (option string) -> M PyVal) : Bot.t :=
  with_dispatcher self
    (Dispatcher.register_listener (Bot.dispatcher self)
       (Listener.mk regex f false)).

Definition respond_to (self : Bot.t) (regex : Re.regex)
    (f : Message.t -> list (option string) -> M PyVal) : Bot.t :=
  with_dispatcher self
    (Dispatcher.register_listener (Bot.dispatcher self)
       (Listener.mk regex f true)).

Definition action (self : Bot.t) (regex : Re.regex)
    (f : gmap string PyVal -> list (option string) -> M PyVal) : Bot.t :=
  with_dispatcher self
    (Dispatcher.register_action (Bot.dispatcher self) regex f).

Definition command (self : Bot.t) (name : string)
    (f : gmap string PyVal -> M PyVal) : exn + Bot.t :=
  match Dispatcher.register_command (Bot.dispatcher self) name f with
  | inl e => inl e
  | inr d => inr (with_dispatcher self d)
  end.

(** The [job] that [schedule] hands to the scheduler for [f]. *)
Definition job (self : Bot.t) (f : M PyVal) : M unit :=
  try_except (_ ← f; ret tt)
    (fun e => Bot.cleanup_on_exception self;; raise e).

Definition send_message (self : Bot.t) (kwargs : gmap string PyVal) : M unit :=
  result ← api_call (Bot.sc self) "chat.postMessage" kwargs;
  if negb (ok result) then raise (Exception (shown result)) else ret tt.



End BotMore.


(** A client that refuses every call. *)
Definition failing_client : SlackClient :=
  mkClient (fun _ _ => mkResponse false "{'ok': False, 'error': 'denied'}").

(** The other fields of the sample answers. *)
Definition sample_items : ResponseItems :=
  fun r k =>
    if ok r
    then (if String.eqb k "channel" then Some (PStr "general")
          else if String.eqb k "user" then Some (PStr "someone")
          else None)
    else (if String.eqb k "error" then Some (PStr "denied") else None).

Definition raising_hook : M unit := raise (Exception "hook").

Definition no_channel_event : gmap string PyVal :=
  delete "channel" (text_event "hi" "channel").

(** A text event with nothing but [type] and [text]. *)
Definition bare_msg (text : PyVal) : Message.t :=
  Message.mk (<["type" := PStr "message"]> (<["text" := text]> ∅)) ok_client.

Definition command_payload (command token : string) : gmap string PyVal :=
  <["command" := PStr command]> (<["token" := PStr token]> ∅).

(** A dispatcher with the command [/deploy], whose handler hands back
    [v]. *)
Definition deploy_dispatcher (v : PyVal) : Dispatcher.t :=
  Dispatcher.mk [] []
    (<["/deploy" := Command.mk (command_handler v)]> ∅) [] "U123".





Definition failing_msg (text channel_type : string) : Message.t :=
  Message.mk (text_event text channel_type) failing_client.

Definition failing_bot (ls : list Listener.t) : Bot.t :=
  Bot.mk failing_client (sample_dispatcher ls) Bot.default_cleanup.

Definition no_ts_msg : Message.t :=
  Message.mk (delete "ts" (text_event "hi" "channel")) ok_client.

(** [w'] is [w] followed by at most one call, a [chat.postMessage] to the
    channel of [msg]. *)
Definition at_most_one_reply (msg : Message.t) (w w' : list Call) : Prop :=
  exists calls,
    w' = (w ++ calls)%list
    /\ length calls <= 1
    /\ Forall (fun c => c_method c = "chat.postMessage"
                        /\ c_args c !! "channel"
                           = Message.body msg !! "channel") calls.

(** A handler that itself calls nothing on [msg]. *)
Definition quiet_on (msg : Message.t) (l : Listener.t) : Prop :=
  forall captures w, snd (Listener.f l msg captures w) = w.

(* ===================================================================== *)
(** ** Facts about the matcher *)
(* ===================================================================== *)

#[local] Arguments Re.chr_eq : simpl never.
#[local] Arguments Ascii.eqb : simpl never.
#[local] Arguments Re.is_word : simpl never.
#[local] Arguments Re.is_space : simpl never.
#[local] Arguments Re.not_newline : simpl never.

Section EngineFacts.
Context {A : Type}.
Implicit Types (k : Re.state -> option A) (p : ascii -> bool) (s : string).

Lemma orelse_None (x : option A) : Re.orelse x None = x.
Proof. by destruct x. Qed.

Lemma star_loop_step (body : Re.cont -> Re.cont) p k fuel :
  (forall k' st, body k' st = Re.step p k' st) ->
  forall n cs s, String.length s <= fuel ->
    Re.star_loop body k fuel (Re.mkState n s cs) = greedy p k n cs s.
Proof.
  intros Hbody.
  induction fuel as [|fuel IH]; intros n cs s Hlen.
  - destruct s; simpl in *; [done | lia].
  - destruct s as [|c t]; simpl; rewrite Hbody; unfold Re.step; simpl; [done|].
    destruct (p c); [|done].
    replace (n <? S n) with true by (symmetry; apply Nat.ltb_lt; lia).
    rewrite IH; [done | simpl in Hlen; lia].
Qed.

Lemma greedy_cut p k s :
  (forall n c t cs, p c = true -> k (Re.mkState n (String c t) cs) = None) ->
  forall n cs,
    greedy p k n cs s
    = k (Re.mkState (n + String.length (Text.take_while p s))
                    (Text.drop_while p s) cs).
Proof.
  intros Hk. induction s as [|c t IH]; intros n cs; simpl.
  - by rewrite Nat.add_0_r.
  - destruct (p c) eqn:Hc; simpl.
    + rewrite IH, (Hk _ _ _ _ Hc), orelse_None. f_equal. f_equal. lia.
    + by rewrite Nat.add_0_r.
Qed.

Lemma greedy_max p k s a :
  forall n cs,
    k (Re.mkState (n + String.length (Text.take_while p s))
                  (Text.drop_while p s) cs) = Some a ->
    greedy p k n cs s = Some a.
Proof.
  induction s as [|c t IH]; intros n cs; simpl.
  - by rewrite Nat.add_0_r.
  - destruct (p c) eqn:Hc; simpl.
    + intros Hk. rewrite (IH (S n) cs); [done|].
      rewrite <- Hk. f_equal. f_equal. lia.
    + by rewrite Nat.add_0_r.
Qed.

Lemma rmatch_lit ic q :
  forall i k n cs s,
    Re.rmatch ic i (Re.lit q) k (Re.mkState n s cs)
    = match Text.strip_prefix ic q s with
      | Some t => k (Re.mkState (n + String.length q) t cs)
      | None => None
      end.
Proof.
  induction q as [|c q IH]; intros i k n cs s; simpl.
  - by rewrite Nat.add_0_r.
  - unfold Re.step; simpl. destruct s as [|d s]; [done|].
    destruct (Re.chr_eq ic c d); [|done].
    rewrite IH. destruct (Text.strip_prefix ic q s); [|done].
    f_equal. f_equal. lia.
Qed.
End EngineFacts.

#[local] Arguments Re.star_loop : simpl never.

Lemma take_str_take_while p s :
  Re.take_str (String.length (Text.take_while p s)) s = Text.take_while p s.
Proof.
  induction s as [|c t IH]; simpl; [done|].
  destruct (p c); simpl; [by rewrite IH | done].
Qed.

Lemma rmatch_rest_re ic i n s cs :
  Re.rmatch ic i rest_re final (Re.mkState n s cs)
  = Some (Re.mkMatch (<[i := Some (Text.residual s)]> cs)).
Proof.
  unfold rest_re. simpl.
  rewrite (star_loop_step _ Re.is_space) by (done || (cbn; lia)).
  apply greedy_max. simpl.
  rewrite (star_loop_step _ Re.not_newline) by (done || (cbn; lia)).
  apply greedy_max. unfold final, Re.set_cap, Re.captured. simpl.
  rewrite Nat.add_0_r.
  replace (_ + _ - _) with (String.length (Text.take_while Re.not_newline (Text.drop_while Re.is_space s))) by lia.
  by rewrite take_str_take_while.
Qed.

Lemma rmatch_Cat {A} ic i r1 r2 (k : Re.state -> option A) st :
  Re.rmatch ic i (Re.Cat r1 r2) k st
  = Re.rmatch ic i r1 (Re.rmatch ic (i + Re.ngroups r1) r2 k) st.
Proof. done. Qed.

Lemma rmatch_Lit {A} ic i c (k : Re.state -> option A) n s cs :
  Re.rmatch ic i (Re.Lit c) k (Re.mkState n s cs)
  = match s with
    | String d t => if Re.chr_eq ic c d then k (Re.mkState (S n) t cs) else None
    | EmptyString => None
    end.
Proof. done. Qed.

Lemma rmatch_tail_re i n s cs :
  Re.rmatch false i tail_re final (Re.mkState n s cs)
  = Some (Re.mkMatch (<[i := Some (Text.residual (Text.strip_comma s))]> cs)).
Proof.
  unfold tail_re. rewrite rmatch_Cat. cbn [Re.ngroups]. rewrite Nat.add_0_r.
  cbn [Re.rmatch]. fold rest_re.
  change (Re.step ?p ?k ?st) with (Re.rmatch false i (Re.Lit ",") k st).
  rewrite rmatch_Lit. unfold Text.strip_comma, Re.chr_eq.
  destruct s as [|c t]; cbn [Re.orelse]; [apply rmatch_rest_re|].
  destruct (Ascii.eqb "," c); rewrite rmatch_rest_re; done.
Qed.

Lemma word_not_gt c : Re.is_word c = true -> Re.chr_eq false ">" c = false.
Proof.
  intros Hw. unfold Re.chr_eq. destruct (Ascii.eqb_spec ">" c) as [<-|]; [|done].
  by vm_compute in Hw.
Qed.

Lemma rmatch_group_word {A} ic i (k : Re.state -> option A) n s cs :
  (forall n c t cs, Re.is_word c = true ->
     k (Re.mkState n (String c t) cs) = None) ->
  Re.rmatch ic i (Re.Group (Re.Plus Re.Word)) k (Re.mkState n s cs)
  = match Text.take_while Re.is_word s with
    | EmptyString => None
    | String c w =>
        k (Re.mkState (n + S (String.length w)) (Text.drop_while Re.is_word s)
             (<[i := Some (String c w)]> cs))
    end.
Proof.
  intros Hk. cbn [Re.rmatch]. unfold Re.step at 1. cbn [Re.rest Re.pos Re.caps].
  destruct s as [|c t]; [done|]. cbn [Text.take_while Text.drop_while].
  destruct (Re.is_word c) eqn:Hc; [|done].
  rewrite (star_loop_step _ Re.is_word) by (done || (cbn; lia)).
  rewrite greedy_cut.
  - unfold Re.set_cap, Re.captured. cbn [Re.rest Re.pos Re.caps].
    replace (S n + _ - n) with (S (String.length (Text.take_while Re.is_word t))) by lia.
    cbn [Re.take_str]. rewrite take_str_take_while.
    do 2 f_equal. lia.
  - intros n' c' t' cs' Hc'. unfold Re.set_cap. cbn [Re.rest Re.pos Re.caps].
    by apply Hk.
Qed.

Lemma re_match_mention text :
  Re.re_match false Dispatcher.mention_re text
  = match explicit_mention text with
    | Some (u, r) => Some (Re.mkMatch [Some u; Some r])
    | None => None
    end.
Proof.
  unfold Re.re_match, Dispatcher.mention_re, explicit_mention.
  change (fun s : Re.state => Some (Re.mkMatch (Re.caps s))) with final.
  fold rest_re. fold tail_re.
  cbn [Re.ngroups Nat.add replicate Text.strip_prefix].
  rewrite rmatch_Cat, rmatch_Lit. destruct text as [|c1 t]; [done|].
  destruct (Re.chr_eq false "<" c1); [|done].
  rewrite rmatch_Cat, rmatch_Lit. destruct t as [|c2 t]; [done|].
  destruct (Re.chr_eq false "@" c2); [|done].
  rewrite rmatch_Cat, rmatch_group_word.
  2:{ intros n c t' cs Hc. rewrite rmatch_Cat, rmatch_Lit.
      by rewrite (word_not_gt _ Hc). }
  destruct (Text.take_while Re.is_word t) as [|c w]; [done|].
  rewrite rmatch_Cat, rmatch_Lit.
  destruct (Text.drop_while Re.is_word t) as [|d t2]; [done|].
  unfold Re.chr_eq. destruct (Ascii.eqb ">" d); [|done].
  cbn [Re.ngroups Nat.add]. by rewrite rmatch_tail_re.
Qed.

Lemma chr_eq_comma c : Re.chr_eq true "," c = Ascii.eqb "," c.
Proof. by destruct c as [[] [] [] [] [] [] [] []]. Qed.

Lemma ngroups_lit s : Re.ngroups (Re.lit s) = 0.
Proof. induction s; simpl; [done | by rewrite IHs]. Qed.

Lemma ngroups_alts_lit names : Re.ngroups (Re.alts (map Re.lit names)) = 0.
Proof.
  induction names as [|a [|b names] IH]; [done | apply ngroups_lit |].
  change (Re.ngroups (Re.lit a) + Re.ngroups (Re.alts (map Re.lit (b :: names))) = 0).
  by rewrite ngroups_lit, IH.
Qed.

Lemma rmatch_comma_re j n t cs :
  Re.rmatch true j comma_re final (Re.mkState n t cs)
  = match t with
    | String c t' =>
        if Ascii.eqb "," c
        then Some (Re.mkMatch (<[j := Some (Text.residual t')]> cs))
        else None
    | EmptyString => None
    end.
Proof.
  unfold comma_re. rewrite rmatch_Cat, rmatch_Lit. destruct t as [|c t']; [done|].
  rewrite chr_eq_comma. destruct (Ascii.eqb "," c); [|done].
  cbn [Re.ngroups]. rewrite Nat.add_0_r. apply rmatch_rest_re.
Qed.

Lemma rmatch_alt_names j names :
  names <> [] ->
  forall i n cs text,
    Re.rmatch true i (Re.alts (map Re.lit names))
      (Re.rmatch true j comma_re final) (Re.mkState n text cs)
    = match alt_mention names text with
      | Some r => Some (Re.mkMatch (<[j := Some r]> cs))
      | None => None
      end.
Proof.
  assert (Hone : forall name i n cs text,
    Re.rmatch true i (Re.lit name) (Re.rmatch true j comma_re final)
      (Re.mkState n text cs)
    = match Text.strip_prefix true name text with
      | Some (String c t) =>
          if Ascii.eqb "," c
          then Some (Re.mkMatch (<[j := Some (Text.residual t)]> cs))
          else None
      | _ => None
      end).
  { intros. rewrite rmatch_lit. destruct (Text.strip_prefix true name text); [|done].
    by rewrite rmatch_comma_re. }
  induction names as [|a [|b names] IH]; intros Hne i n cs text; [done | |].
  - cbn [map Re.alts alt_mention]. rewrite Hone.
    destruct (Text.strip_prefix true a text) as [[|c t]|]; try done.
    by destruct (Ascii.eqb "," c).
  - change (Re.alts (map Re.lit (a :: b :: names)))
      with (Re.Alt (Re.lit a) (Re.alts (map Re.lit (b :: names)))).
    cbn [Re.rmatch]. rewrite Hone, IH by done.
    cbn [alt_mention].
    destruct (Text.strip_prefix true a text) as [[|c t]|]; try done.
    by destruct (Ascii.eqb "," c).
Qed.

Lemma re_match_alt_names names text :
  names <> [] ->
  Re.re_match true (Dispatcher.alt_names_re names) text
  = match alt_mention names text with
    | Some r => Some (Re.mkMatch [Some r])
    | None => None
    end.
Proof.
  intros Hne. unfold Re.re_match, Dispatcher.alt_names_re.
  change (fun s : Re.state => Some (Re.mkMatch (Re.caps s))) with final.
  fold rest_re. fold comma_re.
  rewrite rmatch_Cat. cbn [Re.ngroups]. rewrite ngroups_alts_lit.
  cbn [Nat.add replicate].
  by rewrite rmatch_alt_names.
Qed.

(** [parse_mention] in terms of plain string functions. *)
Lemma parse_mention_eq d text :
  Dispatcher.parse_mention d text
  = let by_name :=
      match alt_mention (Dispatcher.alt_names d) text with
      | Some r => (true, Some r)
      | None => (false, Some text)
      end in
    match explicit_mention text with
    | Some (u, r) =>
        if bool_decide (u = Dispatcher.bot_id d) then (true, Some r) else by_name
    | None => by_name
    end.
Proof.
  unfold Dispatcher.parse_mention. rewrite re_match_mention.
  assert (Hby :
    match Dispatcher.alt_names d with
    | [] => (false, Some text)
    | _ :: _ =>
        match Re.re_match true (Dispatcher.alt_names_re (Dispatcher.alt_names d)) text with
        | Some mm => (true, Re.group mm 1)
        | None => (false, Some text)
        end
    end
    = match alt_mention (Dispatcher.alt_names d) text with
      | Some r => (true, Some r)
      | None => (false, Some text)
      end).
  { destruct (Dispatcher.alt_names d) as [|a names] eqn:Hn; [done|].
    rewrite re_match_alt_names by done.
    by destruct (alt_mention (a :: names) text). }
  rewrite Hby. cbv zeta.
  destruct (explicit_mention text) as [[u r]|]; [|done].
  unfold Re.group. cbn [Re.groups]. simpl.
  destruct (bool_decide (Some u = Some (Dispatcher.bot_id d))) eqn:H1,
           (bool_decide (u = Dispatcher.bot_id d)) eqn:H2; try done.
  - apply bool_decide_eq_true in H1. apply bool_decide_eq_false in H2. congruence.
  - apply bool_decide_eq_false in H1. apply bool_decide_eq_true in H2. congruence.
Qed.

(* ===================================================================== *)
(** ** Facts about replies and the listener loop *)
(* ===================================================================== *)

Ltac run_monad := unfold mbind, M_bind, bind, mret, M_ret, ret, raise.

Lemma bind_returned {A B} (m : M A) (k : A -> M B) w a w' :
  m w = (Returned a, w') -> (m ≫= k) w = k a w'.
Proof. intros Hm. run_monad. by rewrite Hm. Qed.

Lemma bind_raised {A B} (m : M A) (k : A -> M B) w e w' :
  m w = (Raised e, w') -> (m ≫= k) w = (Raised e, w').
Proof. intros Hm. run_monad. by rewrite Hm. Qed.

Lemma reply_run msg text kw ch w :
  Message.body msg !! "channel" = Some ch ->
  Message.reply msg text kw w
  = (reply_outcome msg w (reply_call msg text kw ch),
     (w ++ [reply_call msg text kw ch])%list).
Proof.
  intros Hch. unfold Message.reply, Message.channel_id, getitem.
  rewrite Hch. run_monad. unfold api_call, reply_outcome, reply_call, reply_args.
  by destruct (ok _).
Qed.

Section Loop.
Context {fmt : PyFormat}.

Lemma process_run l msg m w v w1 :
  Listener.f l msg (Re.groups m) w = (Returned v, w1) ->
  Listener.process l msg m w
  = match v with
    | PStr s => Message.reply msg (PStr s) ∅ w1
    | PDict d => Message.reply_kw msg d w1
    | _ =>
        if truthy v
        then (Raised (Exception ("Bad listener result: " +:+ py_format v)), w1)
        else (Returned tt, w1)
    end.
Proof.
  intros Hf. unfold Listener.process. rewrite (bind_returned _ _ _ _ _ Hf).
  destruct v; try done; by destruct (truthy _).
Qed.

Lemma process_other l msg m w v w1 :
  Listener.f l msg (Re.groups m) w = (Returned v, w1) ->
  other_type v = true ->
  Listener.process l msg m w
  = (if truthy v
     then Raised (Exception ("Bad listener result: " +:+ py_format v))
     else Returned tt, w1).
Proof.
  intros Hf Ho. rewrite (process_run _ _ _ _ _ _ Hf).
  destruct v; try done; by destruct (truthy _).
Qed.

Lemma scan_miss msg mentioned direct txt l ls :
  fires l mentioned direct txt = None ->
  Dispatcher.scan msg mentioned direct (Some txt) (l :: ls)
  = Dispatcher.scan msg mentioned direct (Some txt) ls.
Proof.
  unfold fires, skipped. cbn [Dispatcher.scan].
  destruct (_ && _); [done|]. by intros ->.
Qed.

Lemma scan_hit msg mentioned direct txt l ls m :
  fires l mentioned direct txt = Some m ->
  Dispatcher.scan msg mentioned direct (Some txt) (l :: ls)
  = Listener.process l msg m.
Proof.
  unfold fires, skipped. cbn [Dispatcher.scan].
  destruct (_ && _); [done|]. by intros ->.
Qed.

Lemma scan_misses msg mentioned direct txt pre ls :
  Forall (fun l => fires l mentioned direct txt = None) pre ->
  Dispatcher.scan msg mentioned direct (Some txt) (pre ++ ls)
  = Dispatcher.scan msg mentioned direct (Some txt) ls.
Proof.
  induction 1 as [|l pre Hl _ IH]; [done|].
  change ((l :: pre) ++ ls)%list with (l :: (pre ++ ls))%list.
  by rewrite scan_miss.
Qed.

Lemma scan_first_hit msg mentioned direct txt pre l post m :
  Forall (fun l' => fires l' mentioned direct txt = None) pre ->
  fires l mentioned direct txt = Some m ->
  Dispatcher.scan msg mentioned direct (Some txt) (pre ++ l :: post)
  = Listener.process l msg m.
Proof. intros Hpre Hl. rewrite scan_misses by done. by apply scan_hit. Qed.

Lemma scan_no_hit msg mentioned direct txt ls :
  Forall (fun l => fires l mentioned direct txt = None) ls ->
  Dispatcher.scan msg mentioned direct (Some txt) ls
  = if mentioned || direct
    then Message.reply msg (PStr Dispatcher.fallback_text) ∅
    else ret tt.
Proof.
  intros Hls. rewrite <- (app_nil_r ls). by rewrite scan_misses.
Qed.

Lemma scan_skip msg mentioned direct text pre l post :
  skipped l mentioned direct = true ->
  Dispatcher.scan msg mentioned direct text (pre ++ l :: post)
  = Dispatcher.scan msg mentioned direct text (pre ++ post).
Proof.
  intros Hskip. induction pre as [|l' pre IH].
  - cbn [app Dispatcher.scan]. unfold skipped in Hskip. by rewrite Hskip.
  - change ((l' :: pre) ++ ?x)%list with (l' :: (pre ++ x))%list.
    cbn [Dispatcher.scan]. rewrite IH.
    destruct (_ && _); [done|]. destruct text as [txt|]; [|done].
    by destruct (Listener.match_ l' txt).
Qed.

(** A text event reaches the listener loop with the result of
    [parse_mention] and the directness of its channel type. *)
Lemma process_message_scan d msg text mentioned otxt ct w :
  Message.body msg !! "type" = Some (PStr "message") ->
  Message.body msg !! "text" = Some (PStr text) ->
  Message.body msg !! "channel_type" = Some ct ->
  Dispatcher.parse_mention d text = (mentioned, otxt) ->
  Dispatcher.process_message d msg w
  = Dispatcher.scan msg mentioned (py_eq_str ct "app_home") otxt
      (Dispatcher.listeners d) w.
Proof.
  intros Hty Htext Hct Hpm. unfold Dispatcher.process_message.
  unfold Message.is_text_message. rewrite Hty, Htext. cbn [py_eq_str].
  change (String.eqb "message" "message") with true. cbn [negb].
  unfold getitem. rewrite Htext. run_monad. rewrite Hpm, Hct. done.
Qed.
End Loop.

(** The text handed to the listeners is always a string. *)
Lemma parse_mention_text d text :
  exists txt, snd (Dispatcher.parse_mention d text) = Some txt.
Proof.
  rewrite parse_mention_eq. cbv zeta.
  destruct (explicit_mention text) as [[u r]|];
    [destruct (bool_decide _)|];
    try destruct (alt_mention _ text); eauto.
Qed.

(* ===================================================================== *)
(** ** Facts about the two mention forms *)
(* ===================================================================== *)

Lemma strip_prefix_exact p s t :
  Text.strip_prefix false p s = Some t -> s = p +:+ t.
Proof.
  revert s. induction p as [|c p IH]; intros s; simpl.
  - by intros [= ->].
  - destruct s as [|d s]; [done|]. unfold Re.chr_eq.
    destruct (Ascii.eqb_spec c d) as [->|]; [|done].
    intros Hs. by rewrite (IH _ Hs).
Qed.

Lemma strip_prefix_append p t : Text.strip_prefix false p (p +:+ t) = Some t.
Proof.
  induction p as [|c p IH]; [done|].
  change (String c p +:+ t) with (String c (p +:+ t)).
  cbn [Text.strip_prefix]. unfold Re.chr_eq. by rewrite Ascii.eqb_refl.
Qed.














(* ===================================================================== *)
(** ** The dispatch claims *)
(* ===================================================================== *)

(** C1, as amended.  For a text event and listeners [L1] before [L2] in
    registration order that both pass the mention-only gate and both
    match the (possibly mention-stripped) text: when no listener before
    [L1] fires, dispatch is exactly [L1]'s [process] -- only [L1]'s handler
    runs, the scan stops there, and at most one listener fires. *)
Theorem first_eligible_match_wins {fmt : PyFormat} d msg text mentioned txt ct
    pre L1 mid L2 post m1 m2 w :
  Message.body msg !! "type" = Some (PStr "message") ->
  Message.body msg !! "text" = Some (PStr text) ->
  Message.body msg !! "channel_type" = Some ct ->
  Dispatcher.parse_mention d text = (mentioned, Some txt) ->
  Dispatcher.listeners d = (pre ++ L1 :: mid ++ L2 :: post)%list ->
  Forall (fun l => fires l mentioned (py_eq_str ct "app_home") txt = None) pre ->
  fires L1 mentioned (py_eq_str ct "app_home") txt = Some m1 ->
  fires L2 mentioned (py_eq_str ct "app_home") txt = Some m2 ->
  Dispatcher.process_message d msg w = Listener.process L1 msg m1 w.
Proof.
  intros Hty Htext Hct Hpm Hls Hpre H1 _.
  rewrite (process_message_scan _ _ _ _ _ _ _ Hty Htext Hct Hpm), Hls.
  by rewrite (scan_first_hit _ _ _ _ _ _ _ _ Hpre H1).
Qed.

Lemma first_eligible_match_wins_witness :
  Dispatcher.process_message (fmt := scalar_format)
    (sample_dispatcher [L_bye; L_two; L_bye; L_one])
    (sample_msg "Bob, hi there" "channel") []
  = Listener.process (fmt := scalar_format) L_two
      (sample_msg "Bob, hi there" "channel") (Re.mkMatch []) [].
Proof.
  apply (first_eligible_match_wins (fmt := scalar_format) _ _
           "Bob, hi there" true "hi there" (PStr "channel")
           [L_bye] L_two [L_bye] L_one [] (Re.mkMatch []) (Re.mkMatch []));
    try (vm_compute; reflexivity).
  repeat constructor.
Defined.

(** C1 as stated fails: a mention-only [L_one] registered before [L_two],
    both patterns matching the unaddressed text, and it is [L_two] that
    runs. *)
Lemma later_listener_fires_past_mention_only :
  let d := sample_dispatcher [L_one; L_two] in
  let msg := sample_msg "hi there" "channel" in
  Dispatcher.parse_mention d "hi there" = (false, Some "hi there")
  /\ Listener.match_ L_one "hi there" = Some (Re.mkMatch [])
  /\ Listener.match_ L_two "hi there" = Some (Re.mkMatch [])
  /\ Dispatcher.process_message (fmt := scalar_format) d msg []
     = Listener.process (fmt := scalar_format) L_two msg (Re.mkMatch []) []
  /\ Dispatcher.process_message (fmt := scalar_format) d msg []
     <> Listener.process (fmt := scalar_format) L_one msg (Re.mkMatch []) [].
Proof.
  cbv zeta. repeat split; try (vm_compute; reflexivity).
  intros Heq. vm_compute in Heq. discriminate Heq.
Qed.

(** C4.  When no listener fires on a text event, dispatch sends exactly
    one reply, carrying the fixed fallback text, if the message was
    mentioned or direct, and sends nothing otherwise. *)
Theorem unmatched_message_fallback {fmt : PyFormat} d msg text mentioned txt
    ct ch w :
  Message.body msg !! "type" = Some (PStr "message") ->
  Message.body msg !! "text" = Some (PStr text) ->
  Message.body msg !! "channel_type" = Some ct ->
  Message.body msg !! "channel" = Some ch ->
  Dispatcher.parse_mention d text = (mentioned, Some txt) ->
  Forall (fun l => fires l mentioned (py_eq_str ct "app_home") txt = None)
    (Dispatcher.listeners d) ->
  let c := reply_call msg (PStr Dispatcher.fallback_text) ∅ ch in
  Dispatcher.process_message d msg w
  = if mentioned || py_eq_str ct "app_home"
    then (reply_outcome msg w c, (w ++ [c])%list)
    else (Returned tt, w).
Proof.
  intros Hty Htext Hct Hch Hpm Hls c.
  rewrite (process_message_scan _ _ _ _ _ _ _ Hty Htext Hct Hpm).
  rewrite (scan_no_hit _ _ _ _ _ Hls).
  destruct (mentioned || _); [by apply reply_run | done].
Qed.

Lemma unmatched_message_fallback_witness :
  (let msg := sample_msg "<@U123> what" "channel" in
   let c := reply_call msg (PStr Dispatcher.fallback_text) ∅ (PStr "C1") in
   Dispatcher.process_message (fmt := scalar_format)
     (sample_dispatcher [L_one; L_bye]) msg []
   = (reply_outcome msg [] c, [c]))
  /\ (Dispatcher.process_message (fmt := scalar_format)
        (sample_dispatcher [L_one; L_bye]) (sample_msg "what" "channel") []
      = (Returned tt, [])).
Proof.
  split.
  - apply (unmatched_message_fallback (fmt := scalar_format)
             (sample_dispatcher [L_one; L_bye])
             (sample_msg "<@U123> what" "channel")
             "<@U123> what" true "what" (PStr "channel") (PStr "C1") []);
      try (vm_compute; reflexivity).
    repeat constructor.
  - apply (unmatched_message_fallback (fmt := scalar_format)
             (sample_dispatcher [L_one; L_bye])
             (sample_msg "what" "channel")
             "what" false "what" (PStr "channel") (PStr "C1") []);
      try (vm_compute; reflexivity).
    repeat constructor.
Defined.

(** C5.  A listener flagged mention-only is skipped unless the message
    was mentioned or direct: on unaddressed text outside the home context
    dispatch goes on as if it were not registered, and once the message is
    mentioned or comes from the home context ([app_home], which alone sets
    [direct]) it fires on a matching text that no earlier listener took. *)
Theorem mention_only_gate {fmt : PyFormat} d msg text mentioned txt ct
    pre L post w :
  Message.body msg !! "type" = Some (PStr "message") ->
  Message.body msg !! "text" = Some (PStr text) ->
  Message.body msg !! "channel_type" = Some ct ->
  Dispatcher.parse_mention d text = (mentioned, Some txt) ->
  Dispatcher.listeners d = (pre ++ L :: post)%list ->
  Listener.mention_only L = true ->
  (mentioned = false -> py_eq_str ct "app_home" = false ->
     Dispatcher.process_message d msg w
     = Dispatcher.process_message (with_listeners d (pre ++ post)) msg w)
  /\ (forall m,
        mentioned = true \/ ct = PStr "app_home" ->
        Forall (fun l => fires l mentioned (py_eq_str ct "app_home") txt = None)
          pre ->
        Listener.match_ L txt = Some m ->
        Dispatcher.process_message d msg w = Listener.process L msg m w).
Proof.
  intros Hty Htext Hct Hpm Hls Hmo. split.
  - intros -> Hnd.
    rewrite (process_message_scan _ _ _ _ _ _ _ Hty Htext Hct Hpm), Hls.
    rewrite (process_message_scan (with_listeners d (pre ++ post)) _ _ _ _ _ _
               Hty Htext Hct Hpm).
    rewrite Hnd. cbn [with_listeners Dispatcher.listeners].
    rewrite scan_skip; [done|]. unfold skipped. by rewrite Hmo.
  - intros m Haddr Hpre Hm.
    rewrite (process_message_scan _ _ _ _ _ _ _ Hty Htext Hct Hpm), Hls.
    apply (f_equal (fun k => k w)), scan_first_hit; [done|].
    unfold fires, skipped. rewrite Hmo.
    destruct Haddr as [-> | ->]; [done|]. by destruct mentioned.
Qed.

Lemma mention_only_gate_witness :
  (Dispatcher.process_message (fmt := scalar_format)
     (sample_dispatcher [L_bye; L_one; L_two])
     (sample_msg "hi there" "channel") []
   = Dispatcher.process_message (fmt := scalar_format)
       (sample_dispatcher [L_bye; L_two])
       (sample_msg "hi there" "channel") [])
  /\ (Dispatcher.process_message (fmt := scalar_format)
        (sample_dispatcher [L_bye; L_one; L_two])
        (sample_msg "hi there" "app_home") []
      = Listener.process (fmt := scalar_format) L_one
          (sample_msg "hi there" "app_home") (Re.mkMatch []) []).
Proof.
  split.
  - apply (mention_only_gate (fmt := scalar_format)
             (sample_dispatcher [L_bye; L_one; L_two])
             (sample_msg "hi there" "channel")
             "hi there" false "hi there" (PStr "channel")
             [L_bye] L_one [L_two] []); reflexivity.
  - apply (mention_only_gate (fmt := scalar_format)
             (sample_dispatcher [L_bye; L_one; L_two])
             (sample_msg "hi there" "app_home")
             "hi there" false "hi there" (PStr "app_home")
             [L_bye] L_one [L_two] []); try reflexivity.
    + by right.
    + repeat constructor.
Defined.

(* ===================================================================== *)
(** ** Facts about the keywords of a reply *)
(* ===================================================================== *)

Lemma reply_args_text msg text kw ch :
  reply_args msg text kw ch !! "text" = Some text.
Proof.
  unfold reply_args. destruct (Message.body msg !! "thread_ts").
  - rewrite lookup_insert_ne by done. rewrite lookup_insert_ne by done.
    apply lookup_insert_eq.
  - rewrite lookup_insert_ne by done. apply lookup_insert_eq.
Qed.

Lemma reply_args_channel msg text kw ch :
  reply_args msg text kw ch !! "channel" = Some ch.
Proof.
  unfold reply_args. destruct (Message.body msg !! "thread_ts").
  - rewrite lookup_insert_ne by done. apply lookup_insert_eq.
  - apply lookup_insert_eq.
Qed.

Lemma reply_args_thread msg text kw ch :
  reply_args msg text kw ch !! "thread_ts"
  = match Message.body msg !! "thread_ts" with
    | Some ts => Some ts
    | None => kw !! "thread_ts"
    end.
Proof.
  unfold reply_args. destruct (Message.body msg !! "thread_ts").
  - apply lookup_insert_eq.
  - rewrite lookup_insert_ne by done. by rewrite lookup_insert_ne.
Qed.

Lemma reply_args_other msg text kw ch k :
  k <> "text" -> k <> "channel" -> k <> "thread_ts" ->
  reply_args msg text kw ch !! k = kw !! k.
Proof.
  intros Ht Hc Hts. unfold reply_args.
  destruct (Message.body msg !! "thread_ts");
    repeat (rewrite lookup_insert_ne by done); done.
Qed.

Lemma reply_kw_run msg d text ch w :
  d !! "self" = None ->
  d !! "text" = Some text ->
  Message.body msg !! "channel" = Some ch ->
  Message.reply_kw msg d w
  = (reply_outcome msg w (reply_call msg text (delete "text" d) ch),
     (w ++ [reply_call msg text (delete "text" d) ch])%list).
Proof.
  intros Hself Htext Hch. unfold Message.reply_kw. rewrite Hself, Htext.
  by apply reply_run.
Qed.

(* ===================================================================== *)
(** ** The handler-result claims *)
(* ===================================================================== *)

(** C3, as amended.  For a handler run by a matched listener: a [None]
    result sends no reply; a string result makes exactly one reply call
    with that string verbatim as its text; a result of any other type
    that is truthy (a non-zero integer, say) raises the bad-result
    exception, which [process] hands to its caller. *)
Theorem handler_result_contract {fmt : PyFormat} l msg m w v w1 :
  Listener.f l msg (Re.groups m) w = (Returned v, w1) ->
  (v = PNone -> Listener.process l msg m w = (Returned tt, w1))
  /\ (forall s ch,
        v = PStr s ->
        Message.body msg !! "channel" = Some ch ->
        let c := reply_call msg (PStr s) ∅ ch in
        Listener.process l msg m w = (reply_outcome msg w1 c, (w1 ++ [c])%list)
        /\ c_args c !! "text" = Some (PStr s))
  /\ (other_type v = true -> truthy v = true ->
        Listener.process l msg m w
        = (Raised (Exception ("Bad listener result: " +:+ py_format v)), w1)).
Proof.
  intros Hf. repeat split.
  - intros ->. by rewrite (process_run _ _ _ _ _ _ Hf).
  - subst v. rewrite (process_run _ _ _ _ _ _ Hf). by apply reply_run.
  - apply reply_args_text.
  - intros Ho Ht. by rewrite (process_other _ _ _ _ _ _ Hf Ho), Ht.
Qed.

Lemma handler_result_contract_witness :
  let msg := sample_msg "hi" "channel" in
  Listener.process (fmt := scalar_format) L_two msg sample_match []
  = (Returned tt, [reply_call msg (PStr "two") ∅ (PStr "C1")])
  /\ Listener.process (fmt := scalar_format) L_five msg sample_match []
     = (Raised (Exception "Bad listener result: 5"), []).
Proof.
  cbv zeta. split.
  - apply (proj1 (proj1 (proj2 (handler_result_contract (fmt := scalar_format)
             L_two (sample_msg "hi" "channel") sample_match []
             (PStr "two") [] eq_refl)) "two" (PStr "C1") eq_refl eq_refl)).
  - apply (proj2 (proj2 (handler_result_contract (fmt := scalar_format)
             L_five (sample_msg "hi" "channel") sample_match []
             (PInt 5) [] eq_refl)) eq_refl eq_refl).
Defined.

(** C3 as stated fails: an integer result, [0], raises nothing. *)
Lemma integer_zero_result_not_raised :
  other_type (PInt 0) = true
  /\ Listener.process (fmt := scalar_format) L_zero (sample_msg "hi" "channel")
       sample_match []
     = (Returned tt, []).
Proof. split; reflexivity. Qed.

(** C10.  A result that is neither a string nor a dict raises exactly
    when it is truthy; when it is falsy (the integer 0, [False], an empty
    list) [process] sends no reply and raises nothing. *)
Theorem falsy_other_result_is_silent {fmt : PyFormat} l msg m w v w1 :
  Listener.f l msg (Re.groups m) w = (Returned v, w1) ->
  other_type v = true ->
  Listener.process l msg m w
  = (if truthy v
     then Raised (Exception ("Bad listener result: " +:+ py_format v))
     else Returned tt, w1).
Proof. intros Hf Ho. by apply process_other. Qed.

Lemma falsy_other_result_is_silent_witness :
  let msg := sample_msg "hi" "channel" in
  Listener.process (fmt := scalar_format)
    (Listener.mk hi_re (says (PInt 0)) false) msg sample_match []
  = (Returned tt, [])
  /\ Listener.process (fmt := scalar_format)
       (Listener.mk hi_re (says (PBool false)) false) msg sample_match []
     = (Returned tt, [])
  /\ Listener.process (fmt := scalar_format)
       (Listener.mk hi_re (says (PList [])) false) msg sample_match []
     = (Returned tt, [])
  /\ Listener.process (fmt := scalar_format)
       (Listener.mk hi_re (says (PBool true)) false) msg sample_match []
     = (Raised (Exception "Bad listener result: True"), []).
Proof.
  cbv zeta. split; [|split; [|split]].
  - apply (falsy_other_result_is_silent (fmt := scalar_format)
             (Listener.mk hi_re (says (PInt 0)) false)
             (sample_msg "hi" "channel") sample_match [] (PInt 0) []
             eq_refl eq_refl).
  - apply (falsy_other_result_is_silent (fmt := scalar_format)
             (Listener.mk hi_re (says (PBool false)) false)
             (sample_msg "hi" "channel") sample_match [] (PBool false) []
             eq_refl eq_refl).
  - apply (falsy_other_result_is_silent (fmt := scalar_format)
             (Listener.mk hi_re (says (PList [])) false)
             (sample_msg "hi" "channel") sample_match [] (PList []) []
             eq_refl eq_refl).
  - apply (falsy_other_result_is_silent (fmt := scalar_format)
             (Listener.mk hi_re (says (PBool true)) false)
             (sample_msg "hi" "channel") sample_match [] (PBool true) []
             eq_refl eq_refl).
Defined.

(** C6, as amended.  When a handler returns a reply map that has a
    [text] key (and no key named [self]), exactly one reply call is made
    and every key of the map other than [channel] and [thread_ts] reaches
    it unmodified; [channel] is always the channel of the inbound message,
    and [thread_ts] is that of the inbound message when it has one. *)
Theorem structured_reply_forwarding {fmt : PyFormat} l msg m w d text ch w1 :
  Listener.f l msg (Re.groups m) w = (Returned (PDict d), w1) ->
  d !! "self" = None ->
  d !! "text" = Some text ->
  Message.body msg !! "channel" = Some ch ->
  exists c,
    Listener.process l msg m w = (reply_outcome msg w1 c, (w1 ++ [c])%list)
    /\ c_method c = "chat.postMessage"
    /\ (forall k, k <> "channel" -> k <> "thread_ts" -> c_args c !! k = d !! k)
    /\ c_args c !! "channel" = Some ch
    /\ c_args c !! "thread_ts"
       = match Message.body msg !! "thread_ts" with
         | Some ts => Some ts
         | None => d !! "thread_ts"
         end.
Proof.
  intros Hf Hself Htext Hch.
  exists (reply_call msg text (delete "text" d) ch). repeat split.
  - rewrite (process_run _ _ _ _ _ _ Hf). by apply reply_kw_run.
  - intros k Hk1 Hk2. cbn [reply_call c_args].
    destruct (decide (k = "text")) as [->|Hk3].
    + by rewrite reply_args_text.
    + rewrite reply_args_other by done. by rewrite lookup_delete_ne.
  - apply reply_args_channel.
  - cbn [reply_call c_args]. rewrite reply_args_thread.
    by rewrite lookup_delete_ne.
Qed.

Lemma structured_reply_forwarding_witness :
  exists c,
    Listener.process (fmt := scalar_format)
      (Listener.mk hi_re (says (PDict dict_xy)) false)
      (sample_msg "hi" "channel") sample_match []
    = (reply_outcome (sample_msg "hi" "channel") [] c, [c])
    /\ c_method c = "chat.postMessage"
    /\ (forall k, k <> "channel" -> k <> "thread_ts" ->
          c_args c !! k = dict_xy !! k)
    /\ c_args c !! "channel" = Some (PStr "C1")
    /\ c_args c !! "thread_ts" = None.
Proof.
  apply (structured_reply_forwarding (fmt := scalar_format)
           (Listener.mk hi_re (says (PDict dict_xy)) false)
           (sample_msg "hi" "channel") sample_match [] dict_xy
           (PStr "x") (PStr "C1") [] eq_refl eq_refl eq_refl eq_refl).
Defined.

(** C6 as stated fails: a [channel] key of the map is replaced by the
    inbound channel, and a map without [text] is not forwarded at all. *)
Lemma reply_map_not_forwarded_verbatim :
  let msg := sample_msg "hi" "channel" in
  dict_other_channel !! "channel" = Some (PStr "C9")
  /\ Listener.process (fmt := scalar_format)
       (Listener.mk hi_re (says (PDict dict_other_channel)) false)
       msg sample_match []
     = (Returned tt,
        [mkCall "chat.postMessage"
           (<["text" := PStr "x"]> (<["channel" := PStr "C1"]> ∅))])
  /\ Listener.process (fmt := scalar_format)
       (Listener.mk hi_re (says (PDict dict_no_text)) false)
       msg sample_match []
     = (Raised (TypeError
                  "reply() missing 1 required positional argument: 'text'"),
        []).
Proof. cbv zeta. repeat split; vm_compute; reflexivity. Qed.

(* ===================================================================== *)
(** ** Actions, commands and the top-level handler *)
(* ===================================================================== *)

Lemma scan_actions_misses payload cb pre acts w :
  payload !! "callback_id" = Some (PStr cb) ->
  Forall (fun a => Re.re_match false (Action.regex a) cb = None) pre ->
  Dispatcher.scan_actions payload (pre ++ acts) w
  = Dispatcher.scan_actions payload acts w.
Proof.
  intros Hcb. induction 1 as [|a pre Ha _ IH]; [done|].
  change ((a :: pre) ++ acts)%list with (a :: (pre ++ acts))%list.
  cbn [Dispatcher.scan_actions]. unfold getitem. rewrite Hcb.
  run_monad. by rewrite Ha.
Qed.

Lemma re_match_lit ic p s :
  Re.re_match ic (Re.lit p) s
  = match Text.strip_prefix ic p s with
    | Some _ => Some (Re.mkMatch [])
    | None => None
    end.
Proof.
  unfold Re.re_match. rewrite rmatch_lit, ngroups_lit.
  by destruct (Text.strip_prefix ic p s).
Qed.

(** C7, as amended.  [process_action] matches each registered pattern
    against the start of the payload's [callback_id] with no flag, hence
    case-sensitively (a literal pattern matches exactly when it is a
    prefix of the id, character for character); it runs the handler of the
    first action that matches, with the payload and the groups, and raises
    the unknown-action exception when no registered pattern matches. *)
Theorem process_action_first_match d payload cb w :
  payload !! "callback_id" = Some (PStr cb) ->
  (forall pre a post m,
     Dispatcher.actions d = (pre ++ a :: post)%list ->
     Forall (fun a' => Re.re_match false (Action.regex a') cb = None) pre ->
     Re.re_match false (Action.regex a) cb = Some m ->
     Dispatcher.process_action d payload w = Action.f a payload (Re.groups m) w)
  /\ (Forall (fun a => Re.re_match false (Action.regex a) cb = None)
        (Dispatcher.actions d) ->
      Dispatcher.process_action d payload w
      = (Raised (Exception "unknown action"), w))
  /\ (forall p,
        is_Some (Re.re_match false (Re.lit p) cb)
        <-> exists rest, cb = p +:+ rest).
Proof.
  intros Hcb. split; [|split].
  - intros pre a post m Hacts Hpre Ha. unfold Dispatcher.process_action.
    rewrite Hacts, (scan_actions_misses _ _ _ _ _ Hcb Hpre).
    cbn [Dispatcher.scan_actions]. unfold getitem. rewrite Hcb.
    run_monad. by rewrite Ha.
  - intros Hall. unfold Dispatcher.process_action.
    rewrite <- (app_nil_r (Dispatcher.actions d)).
    by rewrite (scan_actions_misses _ _ _ _ _ Hcb Hall).
  - intros p. rewrite re_match_lit. split.
    + destruct (Text.strip_prefix false p cb) as [t|] eqn:Hp.
      * intros _. exists t. by apply strip_prefix_exact.
      * by intros [? ?].
    + intros [rest ->]. rewrite strip_prefix_append. eauto.
Qed.

Lemma process_action_first_match_witness :
  Dispatcher.process_action sample_actions (action_payload "approve:42") []
  = (Returned (PStr "approved"), [])
  /\ Dispatcher.process_action sample_actions (action_payload "reject") []
     = (Raised (Exception "unknown action"), [])
  /\ is_Some (Re.re_match false (Re.lit "app") "approve:42").
Proof.
  split; [|split].
  - apply (proj1 (process_action_first_match sample_actions
             (action_payload "approve:42") "approve:42" [] eq_refl)
             [] (Action.mk (Re.lit "approve") (answers (PStr "approved")))
             [Action.mk (Re.lit "app") (answers (PStr "other"))]
             (Re.mkMatch []) eq_refl (Forall_nil_2 _) eq_refl).
  - apply (proj1 (proj2 (process_action_first_match sample_actions
             (action_payload "reject") "reject" [] eq_refl))).
    repeat constructor.
  - apply (proj2 (proj2 (process_action_first_match sample_actions
             (action_payload "approve:42") "approve:42" [] eq_refl)) "app").
    by exists "rove:42".
Defined.

(** C7 as stated fails: a [callback_id] that differs from the pattern in
    case only matches under the listeners' contract but is an unknown
    action. *)
Lemma action_match_is_case_sensitive :
  Listener.match_ (Listener.mk (Re.lit "approve") (says PNone) false) "APPROVE"
  = Some (Re.mkMatch [])
  /\ Dispatcher.process_action sample_actions (action_payload "APPROVE") []
     = (Raised (Exception "unknown action"), []).
Proof. split; reflexivity. Qed.

(** C8.  Registering a command under a name that is already in the
    command map raises at once, at registration; a registration that
    succeeds binds the new name and leaves every earlier binding as it
    was, so each name keeps the one handler it was registered with. *)
Theorem register_command_unique d name f :
  (is_Some (Dispatcher.commands d !! name) ->
     Dispatcher.register_command d name f
     = inl (Exception ("Duplicate command " +:+ name)))
  /\ (Dispatcher.commands d !! name = None ->
      exists d',
        Dispatcher.register_command d name f = inr d'
        /\ Dispatcher.commands d' !! name = Some (Command.mk f)
        /\ (forall n c, Dispatcher.commands d !! n = Some c ->
              Dispatcher.commands d' !! n = Some c)
        /\ (forall n, n <> name ->
              Dispatcher.commands d' !! n = Dispatcher.commands d !! n)).
Proof.
  unfold Dispatcher.register_command. split.
  - by intros [c ->].
  - intros Hfree. rewrite Hfree. eexists. split; [done|].
    cbn [Dispatcher.commands]. split; [apply lookup_insert_eq|]. split.
    + intros n c Hn. rewrite lookup_insert_ne; [done|]. congruence.
    + intros n Hn. by rewrite lookup_insert_ne.
Qed.

Lemma register_command_unique_witness :
  (exists d',
     Dispatcher.register_command (Dispatcher.init "U123" []) "/deploy"
       (command_handler (PStr "one"))
     = inr d')
  /\ (forall d',
        Dispatcher.register_command (Dispatcher.init "U123" []) "/deploy"
          (command_handler (PStr "one")) = inr d' ->
        Dispatcher.register_command d' "/deploy" (command_handler (PStr "two"))
        = inl (Exception "Duplicate command /deploy")).
Proof.
  split.
  - destruct (proj2 (register_command_unique (Dispatcher.init "U123" [])
                       "/deploy" (command_handler (PStr "one"))) eq_refl)
      as (d' & Hd' & _). by exists d'.
  - intros d' Hd'.
    apply (proj1 (register_command_unique d' "/deploy"
                    (command_handler (PStr "two")))).
    injection Hd' as <-.
    by exists (Command.mk (command_handler (PStr "one"))).
Defined.

(** C9, as amended.  When dispatching a message that carries a channel
    raises, the top-level handler catches the exception and runs the
    cleanup hook; when the hook returns, it then replies in the channel of
    the message with a text that contains the exception's string form:
    exactly one reply call is made. *)
Theorem message_errors_become_replies {fmt : PyFormat} b msg e ch w w1 w2 :
  msg !! "bot_id" = None ->
  msg !! "channel" = Some ch ->
  Dispatcher.process_message (Bot.dispatcher b) (Message.mk msg (Bot.sc b)) w
  = (Raised e, w1) ->
  Bot.cleanup_on_exception b w1 = (Returned tt, w2) ->
  let m := Message.mk msg (Bot.sc b) in
  let c := reply_call m (PStr (Bot.error_text e)) ∅ ch in
  Bot.process_message b msg w
  = (Bot.cleanup_on_exception b
       ≫= fun _ => Message.reply m (PStr (Bot.error_text e)) ∅) w1
  /\ Bot.process_message b msg w = (reply_outcome m w2 c, (w2 ++ [c])%list)
  /\ c_args c !! "text"
     = Some (PStr ("Что-то пошло не так: ```" +:+ exn_str e +:+ "```")).
Proof.
  intros Hbot Hch Hd Hclean m c.
  assert (Hrun : Bot.process_message b msg w
    = (Bot.cleanup_on_exception b
         ≫= fun _ => Message.reply m (PStr (Bot.error_text e)) ∅) w1).
  { unfold Bot.process_message. rewrite Hbot. cbv zeta.
    unfold try_except. by rewrite Hd. }
  split; [done|]. split; [|apply reply_args_text].
  rewrite Hrun, (bind_returned _ _ _ _ _ Hclean).
  by apply reply_run.
Qed.

Lemma message_errors_become_replies_witness :
  let m := sample_msg "hi" "channel" in
  let c := mkCall "chat.postMessage"
             (<["text" := PStr "Что-то пошло не так: ```boom```"]>
                (<["channel" := PStr "C1"]> ∅)) in
  Bot.process_message (fmt := scalar_format) (sample_bot [L_boom])
    (text_event "hi" "channel") []
  = (Returned tt, [c]).
Proof.
  cbv zeta.
  apply (proj1 (proj2 (message_errors_become_replies (fmt := scalar_format)
           (sample_bot [L_boom]) (text_event "hi" "channel")
           (Exception "boom") (PStr "C1") [] [] []
           eq_refl eq_refl eq_refl eq_refl))).
Defined.

(** C9 as stated fails: when the cleanup hook itself raises, the error of
    the dispatch is dropped -- the hook's exception escapes and no reply is
    sent. *)
Lemma raising_hook_drops_error_reply :
  let b := Bot.mk ok_client (sample_dispatcher [L_boom]) raising_hook in
  Dispatcher.process_message (fmt := scalar_format) (Bot.dispatcher b)
    (Message.mk (text_event "hi" "channel") (Bot.sc b)) []
  = (Raised (Exception "boom"), [])
  /\ Bot.process_message (fmt := scalar_format) b
       (text_event "hi" "channel") []
     = (Raised (Exception "hook"), []).
Proof. cbv zeta. split; reflexivity. Qed.

(* ===================================================================== *)
(** ** Further properties: events the bot ignores, and the error path *)
(* ===================================================================== *)

Lemma not_text_message msg :
  Message.body msg !! "type" <> Some (PStr "message")
  \/ Message.body msg !! "text" = None ->
  Message.is_text_message msg = false.
Proof.
  unfold Message.is_text_message.
  destruct (Message.body msg !! "type") as [ty|] eqn:Hty; [|done].
  intros [Hne | ->].
  - destruct ty as [| | |t| |]; try done. cbn [py_eq_str].
    destruct (String.eqb_spec t "message") as [->|]; [done | done].
  - by destruct (negb _).
Qed.

Lemma bot_process_message_run {fmt : PyFormat} b msg w :
  msg !! "bot_id" = None ->
  Bot.process_message b msg w
  = match Dispatcher.process_message (Bot.dispatcher b)
            (Message.mk msg (Bot.sc b)) w with
    | (Returned a, w1) => (Returned a, w1)
    | (Raised e, w1) =>
        (Bot.cleanup_on_exception b
           ≫= fun _ => Message.reply (Message.mk msg (Bot.sc b))
                         (PStr (Bot.error_text e)) ∅) w1
    end.
Proof. intros Hbot. unfold Bot.process_message. by rewrite Hbot. Qed.

(** X1.  The bot does nothing at all -- no call to the Slack client, no
    cleanup hook -- for an event it authored itself ([bot_id] present) and
    for an event that is not a text message (a [type] other than
    ['message'], or no [text]). *)
Theorem ignored_events {fmt : PyFormat} b (msg : gmap string PyVal) w :
  is_Some (msg !! "bot_id")
  \/ msg !! "type" <> Some (PStr "message")
  \/ msg !! "text" = None ->
  Bot.process_message b msg w = (Returned tt, w).
Proof.
  intros Hcases.
  destruct (msg !! "bot_id") as [v|] eqn:Hbot.
  - unfold Bot.process_message. by rewrite Hbot.
  - rewrite bot_process_message_run by done.
    unfold Dispatcher.process_message.
    rewrite not_text_message; [done|].
    destruct Hcases as [[? [=]] | Hcases]. exact Hcases.
Qed.

Lemma ignored_events_witness :
  Bot.process_message (fmt := scalar_format) (sample_bot [L_two])
    (<["bot_id" := PStr "B1"]> (text_event "hi" "channel")) []
  = (Returned tt, [])
  /\ Bot.process_message (fmt := scalar_format) (sample_bot [L_two])
       (<["type" := PStr "reaction_added"]> (text_event "hi" "channel")) []
     = (Returned tt, [])
  /\ Bot.process_message (fmt := scalar_format) (sample_bot [L_two])
       (delete "text" (text_event "hi" "channel")) []
     = (Returned tt, []).
Proof.
  split; [|split].
  - apply (ignored_events (fmt := scalar_format)). left. by eexists.
  - apply (ignored_events (fmt := scalar_format)). right. left. discriminate.
  - apply (ignored_events (fmt := scalar_format)). right. right. reflexivity.
Defined.

(** X2.  Outside the error reply the top-level handler adds nothing: when
    dispatch returns, the hook is not run and no call is added.  And what
    goes wrong inside the [except] block escapes: an exception of the hook
    replaces the original one with no reply sent, and an event without
    [channel] makes the error reply itself raise [KeyError]. *)
Theorem top_level_handler_edges {fmt : PyFormat} b (msg : gmap string PyVal)
    w :
  msg !! "bot_id" = None ->
  (forall w1,
     Dispatcher.process_message (Bot.dispatcher b) (Message.mk msg (Bot.sc b)) w
     = (Returned tt, w1) ->
     Bot.process_message b msg w = (Returned tt, w1))
  /\ (forall e w1 e' w2,
        Dispatcher.process_message (Bot.dispatcher b)
          (Message.mk msg (Bot.sc b)) w = (Raised e, w1) ->
        Bot.cleanup_on_exception b w1 = (Raised e', w2) ->
        Bot.process_message b msg w = (Raised e', w2))
  /\ (forall e w1 w2,
        Dispatcher.process_message (Bot.dispatcher b)
          (Message.mk msg (Bot.sc b)) w = (Raised e, w1) ->
        Bot.cleanup_on_exception b w1 = (Returned tt, w2) ->
        msg !! "channel" = None ->
        Bot.process_message b msg w = (Raised (KeyError "channel"), w2)).
Proof.
  intros Hbot. split; [|split].
  - intros w1 Hd. by rewrite bot_process_message_run, Hd.
  - intros e w1 e' w2 Hd Hhook. rewrite bot_process_message_run, Hd by done.
    run_monad. by rewrite Hhook.
  - intros e w1 w2 Hd Hhook Hch. rewrite bot_process_message_run, Hd by done.
    rewrite (bind_returned _ _ _ _ _ Hhook).
    unfold Message.reply, Message.channel_id, getitem. cbn [Message.body].
    by rewrite Hch.
Qed.

Lemma top_level_handler_edges_witness :
  Bot.process_message (fmt := scalar_format) (sample_bot [L_zero])
    (text_event "hi" "channel") []
  = (Returned tt, [])
  /\ Bot.process_message (fmt := scalar_format)
       (Bot.mk ok_client (sample_dispatcher [L_boom]) raising_hook)
       (text_event "hi" "channel") []
     = (Raised (Exception "hook"), [])
  /\ Bot.process_message (fmt := scalar_format) (sample_bot [L_boom])
       no_channel_event []
     = (Raised (KeyError "channel"), []).
Proof.
  split; [|split].
  - apply (proj1 (top_level_handler_edges (fmt := scalar_format)
             (sample_bot [L_zero]) (text_event "hi" "channel") [] eq_refl)).
    reflexivity.
  - apply (proj1 (proj2 (top_level_handler_edges (fmt := scalar_format)
             (Bot.mk ok_client (sample_dispatcher [L_boom]) raising_hook)
             (text_event "hi" "channel") [] eq_refl))
             (Exception "boom") [] (Exception "hook") []); reflexivity.
  - apply (proj2 (proj2 (top_level_handler_edges (fmt := scalar_format)
             (sample_bot [L_boom]) no_channel_event [] eq_refl))
             (Exception "boom") [] []); reflexivity.
Defined.

(* ===================================================================== *)
(** ** Further properties: registration and precedence *)
(* ===================================================================== *)

Section Registration.
Context {fmt : PyFormat}.

Lemma scan_all_skipped msg text ls :
  Forall (fun l => Listener.mention_only l = true) ls ->
  Dispatcher.scan msg false false text ls = ret tt.
Proof.
  induction 1 as [|l ls Hl _ IH]; [done|].
  cbn [Dispatcher.scan]. by rewrite Hl.
Qed.


End Registration.

(** X3.  A bot all of whose listeners are mention-only says nothing and
    runs no handler on a text that does not address it in a channel other
    than the home context; [respond_to] registers such a listener. *)
Theorem mention_only_bot_is_silent {fmt : PyFormat} b
    (msg : gmap string PyVal) text txt ct w :
  msg !! "bot_id" = None ->
  msg !! "type" = Some (PStr "message") ->
  msg !! "text" = Some (PStr text) ->
  msg !! "channel_type" = Some ct ->
  py_eq_str ct "app_home" = false ->
  Dispatcher.parse_mention (Bot.dispatcher b) text = (false, Some txt) ->
  Forall (fun l => Listener.mention_only l = true)
    (Dispatcher.listeners (Bot.dispatcher b)) ->
  Bot.process_message b msg w = (Returned tt, w)
  /\ forall regex f,
       Forall (fun l => Listener.mention_only l = true)
         (Dispatcher.listeners (Bot.dispatcher (BotMore.respond_to b regex f))).
Proof.
  intros Hbot Hty Htext Hct Hdirect Hpm Hall. split.
  - rewrite bot_process_message_run by done.
    rewrite (process_message_scan _ (Message.mk msg (Bot.sc b)) _ _ _ _ _
               Hty Htext Hct Hpm).
    by rewrite Hdirect, scan_all_skipped.
  - intros regex f. cbn. apply Forall_app. split; [done|]. by constructor.
Qed.

Lemma mention_only_bot_is_silent_witness :
  Bot.process_message (fmt := scalar_format)
    (BotMore.respond_to (BotMore.respond_to (sample_bot []) hi_re
                           (says (PStr "one")))
       (Re.lit "h") (says (PStr "three")))
    (text_event "hi there" "channel") []
  = (Returned tt, []).
Proof.
  apply (mention_only_bot_is_silent (fmt := scalar_format)
           (BotMore.respond_to (BotMore.respond_to (sample_bot []) hi_re
                                  (says (PStr "one")))
              (Re.lit "h") (says (PStr "three")))
           (text_event "hi there" "channel") "hi there" "hi there"
           (PStr "channel") []); try reflexivity.
  repeat constructor.
Defined.





(** X6.  A text event that lacks [channel_type] makes dispatch raise
    [KeyError] before any listener is tried, and one whose [text] is not a
    string makes it raise the matcher's [TypeError]; neither makes any
    call. *)
Theorem malformed_text_event {fmt : PyFormat} d msg w :
  Message.body msg !! "type" = Some (PStr "message") ->
  (forall text,
     Message.body msg !! "text" = Some (PStr text) ->
     Message.body msg !! "channel_type" = None ->
     Dispatcher.process_message d msg w = (Raised (KeyError "channel_type"), w))
  /\ (forall v,
        Message.body msg !! "text" = Some v ->
        (forall s, v <> PStr s) ->
        Dispatcher.process_message d msg w
        = (Raised (TypeError "expected string or bytes-like object"), w)).
Proof.
  intros Hty. unfold Dispatcher.process_message, Message.is_text_message.
  rewrite Hty. cbn [py_eq_str].
  change (String.eqb "message" "message") with true. cbn [negb].
  split.
  - intros text Htext Hct. rewrite Htext. unfold getitem.
    rewrite Htext, Hct. run_monad.
    by destruct (Dispatcher.parse_mention d text).
  - intros v Htext Hv. rewrite Htext. unfold getitem. rewrite Htext.
    run_monad. destruct v; try done. by destruct (Hv s).
Qed.

Lemma malformed_text_event_witness :
  Dispatcher.process_message (fmt := scalar_format)
    (sample_dispatcher [L_two])
    (bare_msg (PStr "hi")) []
  = (Raised (KeyError "channel_type"), [])
  /\ Dispatcher.process_message (fmt := scalar_format)
       (sample_dispatcher [L_two])
       (bare_msg PNone) []
     = (Raised (TypeError "expected string or bytes-like object"), []).
Proof.
  split.
  - apply (proj1 (malformed_text_event (fmt := scalar_format)
             (sample_dispatcher [L_two])
             (bare_msg (PStr "hi")) [] eq_refl) "hi"); reflexivity.
  - apply (proj2 (malformed_text_event (fmt := scalar_format)
             (sample_dispatcher [L_two])
             (bare_msg PNone) [] eq_refl) PNone); [reflexivity | discriminate].
Defined.

(* ===================================================================== *)
(** ** Further properties: commands, the two routes and scheduled jobs *)
(* ===================================================================== *)

(** X7.  A command that was registered is the one that runs: after a
    successful [register_command] of [name], [process_command] on a
    payload naming it is the registered handler applied to the payload,
    and payloads naming any other command are dispatched as before. *)
Theorem registered_command_runs {fmt : PyFormat} d name f d' payload w :
  Dispatcher.register_command d name f = inr d' ->
  (payload !! "command" = Some (PStr name) ->
   DispatcherMore.process_command d' payload w = f payload w)
  /\ (forall other,
        payload !! "command" = Some (PStr other) ->
        other <> name ->
        DispatcherMore.process_command d' payload w
        = DispatcherMore.process_command d payload w).
Proof.
  unfold Dispatcher.register_command.
  destruct (Dispatcher.commands d !! name) eqn:Hfree; [done|].
  intros [= <-]. unfold DispatcherMore.process_command, getitem. split.
  - intros ->. run_monad. cbn [Dispatcher.commands].
    by rewrite lookup_insert_eq.
  - intros other -> Hne. run_monad. cbn [Dispatcher.commands].
    by rewrite lookup_insert_ne.
Qed.

Lemma registered_command_runs_witness :
  exists d',
    Dispatcher.register_command (deploy_dispatcher (PStr "done")) "/status"
      (command_handler (PStr "fine"))
    = inr d'
    /\ DispatcherMore.process_command (fmt := scalar_format) d'
         (command_payload "/status" "t0") []
       = (Returned (PStr "fine"), [])
    /\ DispatcherMore.process_command (fmt := scalar_format) d'
         (command_payload "/deploy" "t0") []
       = DispatcherMore.process_command (fmt := scalar_format)
           (deploy_dispatcher (PStr "done")) (command_payload "/deploy" "t0") [].
Proof.
  eexists. split; [reflexivity|]. split.
  - apply (proj1 (registered_command_runs (fmt := scalar_format)
             (deploy_dispatcher (PStr "done")) "/status"
             (command_handler (PStr "fine")) _
             (command_payload "/status" "t0") [] eq_refl) eq_refl).
  - apply (proj2 (registered_command_runs (fmt := scalar_format)
             (deploy_dispatcher (PStr "done")) "/status"
             (command_handler (PStr "fine")) _
             (command_payload "/deploy" "t0") [] eq_refl) "/deploy" eq_refl).
    discriminate.
Defined.

(** X8.  [process_command] is an exact-name lookup with three ways to
    fail, none of which runs a handler or makes a call: a payload without
    [command] raises [KeyError], a name that is not registered raises
    'Command <name> not found', and a list as command cannot be hashed. *)
Theorem process_command_errors {fmt : PyFormat} d payload w :
  (payload !! "command" = None ->
   DispatcherMore.process_command d payload w = (Raised (KeyError "command"), w))
  /\ (forall name,
        payload !! "command" = Some (PStr name) ->
        Dispatcher.commands d !! name = None ->
        DispatcherMore.process_command d payload w
        = (Raised (Exception ("Command " +:+ name +:+ " not found")), w))
  /\ (forall l,
        payload !! "command" = Some (PList l) ->
        DispatcherMore.process_command d payload w
        = (Raised (TypeError "unhashable type: 'list'"), w)).
Proof.
  unfold DispatcherMore.process_command, getitem. split; [|split].
  - by intros ->.
  - intros name -> Hfree. run_monad. by rewrite Hfree.
  - by intros l ->.
Qed.

Lemma process_command_errors_witness :
  DispatcherMore.process_command (fmt := scalar_format)
    (deploy_dispatcher (PStr "done")) (action_payload "x") []
  = (Raised (KeyError "command"), [])
  /\ DispatcherMore.process_command (fmt := scalar_format)
       (deploy_dispatcher (PStr "done")) (command_payload "/Deploy" "t0") []
     = (Raised (Exception "Command /Deploy not found"), []).
Proof.
  split.
  - apply (proj1 (process_command_errors (fmt := scalar_format)
             (deploy_dispatcher (PStr "done")) (action_payload "x") [])).
    reflexivity.
  - apply (proj1 (proj2 (process_command_errors (fmt := scalar_format)
             (deploy_dispatcher (PStr "done"))
             (command_payload "/Deploy" "t0") [])) "/Deploy"); reflexivity.
Defined.

(** X9.  Unlike listeners and actions, commands do not depend on the
    order of registration: two registrations that succeed one way succeed
    the other way round and give the same dispatcher. *)
Theorem register_command_commutes d a fa b fb d1 d2 :
  Dispatcher.register_command d a fa = inr d1 ->
  Dispatcher.register_command d1 b fb = inr d2 ->
  exists d1',
    Dispatcher.register_command d b fb = inr d1'
    /\ Dispatcher.register_command d1' a fa = inr d2.
Proof.
  unfold Dispatcher.register_command.
  destruct (Dispatcher.commands d !! a) eqn:Ha; [done|]. intros [= <-].
  cbn [Dispatcher.commands Dispatcher.listeners Dispatcher.actions
       Dispatcher.alt_names Dispatcher.bot_id].
  destruct (decide (a = b)) as [->|Hab]; [by rewrite lookup_insert_eq|].
  rewrite lookup_insert_ne by done.
  destruct (Dispatcher.commands d !! b) eqn:Hb; [done|]. intros [= <-].
  eexists. split; [done|].
  cbn [Dispatcher.commands Dispatcher.listeners Dispatcher.actions
       Dispatcher.alt_names Dispatcher.bot_id].
  rewrite lookup_insert_ne by done. rewrite Ha.
  by rewrite insert_insert_ne.
Qed.

Lemma register_command_commutes_witness :
  exists d1',
    Dispatcher.register_command (Dispatcher.init "U123" []) "/b"
      (command_handler (PStr "two")) = inr d1'
    /\ Dispatcher.register_command d1' "/a" (command_handler (PStr "one"))
       = inr (Dispatcher.mk [] []
                (<["/b" := Command.mk (command_handler (PStr "two"))]>
                   (<["/a" := Command.mk (command_handler (PStr "one"))]> ∅))
                [] "U123").
Proof.
  apply (register_command_commutes (Dispatcher.init "U123" [])
           "/a" (command_handler (PStr "one"))
           "/b" (command_handler (PStr "two"))
           (Dispatcher.mk [] []
              (<["/a" := Command.mk (command_handler (PStr "one"))]> ∅)
              [] "U123")); reflexivity.
Defined.






(** X12.  A scheduled job behaves as the function it wraps, except that
    on an exception the cleanup hook runs before the same exception is
    raised again; the hook does not run when the function returns, and an
    exception of the hook takes the place of the original one. *)
Theorem scheduled_job_behaviour b (f : M PyVal) w :
  (forall v w1, f w = (Returned v, w1) -> BotMore.job b f w = (Returned tt, w1))
  /\ (forall e w1 w2,
        f w = (Raised e, w1) ->
        Bot.cleanup_on_exception b w1 = (Returned tt, w2) ->
        BotMore.job b f w = (Raised e, w2))
  /\ (forall e w1 e' w2,
        f w = (Raised e, w1) ->
        Bot.cleanup_on_exception b w1 = (Raised e', w2) ->
        BotMore.job b f w = (Raised e', w2)).
Proof.
  unfold BotMore.job, try_except. run_monad. split; [|split].
  - by intros v w1 ->.
  - by intros e w1 w2 -> ->.
  - by intros e w1 e' w2 -> ->.
Qed.

Lemma scheduled_job_behaviour_witness :
  BotMore.job (sample_bot []) (ret (PInt 1)) [] = (Returned tt, [])
  /\ BotMore.job (sample_bot []) (raise (Exception "boom")) []
     = (Raised (Exception "boom"), [])
  /\ BotMore.job (Bot.mk ok_client (sample_dispatcher []) raising_hook)
       (raise (Exception "boom")) []
     = (Raised (Exception "hook"), []).
Proof.
  split; [|split].
  - apply (proj1 (scheduled_job_behaviour (sample_bot []) (ret (PInt 1)) [])
             (PInt 1) []). reflexivity.
  - apply (proj1 (proj2 (scheduled_job_behaviour (sample_bot [])
             (raise (Exception "boom")) [])) (Exception "boom") [] []);
      reflexivity.
  - apply (proj2 (proj2 (scheduled_job_behaviour
             (Bot.mk ok_client (sample_dispatcher []) raising_hook)
             (raise (Exception "boom")) []))
             (Exception "boom") [] (Exception "hook") []); reflexivity.
Defined.

(* ===================================================================== *)
(** ** Further properties: look-ups and reactions *)
(* ===================================================================== *)

Section Lookups.
Context {fmt : PyFormat} {items : ResponseItems}.

Lemma raise_error_raises {A} response w :
  exists e, raise_error (A := A) response w = (Raised e, w).
Proof.
  unfold raise_error, getresp. run_monad.
  destruct (resp_item response "error"); eauto.
Qed.

Lemma get_user_raises sc uid w :
  exists e,
    Helpers.get_user sc uid w
    = (Raised e, (w ++ [mkCall "users.info" (<["user" := uid]> ∅)])%list).
Proof.
  unfold Helpers.get_user, api_call. run_monad.
  destruct (ok _); cbn [negb].
  - unfold getresp. destruct (resp_item _ "user"); eauto.
  - apply raise_error_raises.
Qed.
End Lookups.

(** X13.  [Message.user] never yields a user: it raises [KeyError] when
    the event has no [user], and otherwise makes one [users.info] call and
    raises whatever the client answers -- on a successful answer holding
    the user, the [TypeError] of a constructor called with too few
    arguments. *)
Theorem message_user_always_raises {fmt : PyFormat} {items : ResponseItems}
    msg w :
  (forall u w', MessageMore.user msg w <> (Returned u, w'))
  /\ (forall uid data,
        let c := mkCall "users.info" (<["user" := uid]> ∅) in
        Message.body msg !! "user" = Some uid ->
        ok (respond (Message.sc msg) w c) = true ->
        resp_item (respond (Message.sc msg) w c) "user" = Some data ->
        MessageMore.user msg w
        = (Raised (TypeError
                     "__init__() missing 1 required positional argument: 'data'"),
           (w ++ [c])%list)).
Proof.
  unfold MessageMore.user, MessageMore.user_id, getitem. split.
  - intros u w'. destruct (Message.body msg !! "user") as [uid|]; [|done].
    run_monad. change (?f w) with (f w).
    destruct (get_user_raises (Message.sc msg) uid w) as [e He].
    unfold mret, M_ret, ret in *. by rewrite He.
  - intros uid data -> Hok Hdata. run_monad.
    unfold Helpers.get_user, api_call. run_monad.
    rewrite Hok. cbn [negb]. unfold getresp. by rewrite Hdata.
Qed.

Lemma message_user_always_raises_witness :
  MessageMore.user (fmt := scalar_format) (items := sample_items)
    (sample_msg "hi" "channel") []
  = (Raised (TypeError
               "__init__() missing 1 required positional argument: 'data'"),
     [mkCall "users.info" (<["user" := PStr "U7"]> ∅)]).
Proof.
  apply (proj2 (message_user_always_raises (fmt := scalar_format)
           (items := sample_items) (sample_msg "hi" "channel") [])
           (PStr "U7") (PStr "someone")); reflexivity.
Defined.

(** X14.  [Message.channel] looks a channel up only for the channel type
    ['channel']: for any other type it returns [None] without calling the
    client; for ['channel'] it makes exactly one [channels.info] call for
    the event's channel and returns what the answer holds, or raises with
    the answer's error. *)
Theorem message_channel_lookup {fmt : PyFormat} {items : ResponseItems}
    msg w :
  (forall ct,
     Message.body msg !! "channel_type" = Some ct ->
     py_eq_str ct "channel" = false ->
     MessageMore.channel msg w = (Returned None, w))
  /\ (forall ch,
        let c := mkCall "channels.info" (<["channel" := ch]> ∅) in
        Message.body msg !! "channel_type" = Some (PStr "channel") ->
        Message.body msg !! "channel" = Some ch ->
        (forall data,
           ok (respond (Message.sc msg) w c) = true ->
           resp_item (respond (Message.sc msg) w c) "channel" = Some data ->
           MessageMore.channel msg w
           = (Returned (Some (Helpers.mkChannel data)), (w ++ [c])%list))
        /\ (forall err,
              ok (respond (Message.sc msg) w c) = false ->
              resp_item (respond (Message.sc msg) w c) "error" = Some err ->
              MessageMore.channel msg w
              = (Raised (Exception (py_str err)), (w ++ [c])%list))).
Proof.
  unfold MessageMore.channel, Message.channel_id, getitem. split.
  - intros ct -> Hct. run_monad. by rewrite Hct.
  - intros ch -> ->. run_monad.
    change (py_eq_str (PStr "channel") "channel") with true. cbv iota.
    unfold Helpers.get_channel, api_call. run_monad. split.
    + intros data -> Hdata. cbn [negb]. unfold getresp. by rewrite Hdata.
    + intros err -> Herr. cbn [negb]. unfold raise_error, getresp.
      run_monad. by rewrite Herr.
Qed.

Lemma message_channel_lookup_witness :
  MessageMore.channel (fmt := scalar_format) (items := sample_items)
    (sample_msg "hi" "im") []
  = (Returned None, [])
  /\ MessageMore.channel (fmt := scalar_format) (items := sample_items)
       (sample_msg "hi" "channel") []
     = (Returned (Some (Helpers.mkChannel (PStr "general"))),
        [mkCall "channels.info" (<["channel" := PStr "C1"]> ∅)])
  /\ MessageMore.channel (fmt := scalar_format) (items := sample_items)
       (failing_msg "hi" "channel") []
     = (Raised (Exception "denied"),
        [mkCall "channels.info" (<["channel" := PStr "C1"]> ∅)]).
Proof.
  split; [|split].
  - apply (proj1 (message_channel_lookup (fmt := scalar_format)
             (items := sample_items) (sample_msg "hi" "im") [])
             (PStr "im")); reflexivity.
  - apply (proj1 (proj2 (message_channel_lookup (fmt := scalar_format)
             (items := sample_items) (sample_msg "hi" "channel") [])
             (PStr "C1") eq_refl eq_refl) (PStr "general")); reflexivity.
  - apply (proj2 (proj2 (message_channel_lookup (fmt := scalar_format)
             (items := sample_items) (failing_msg "hi" "channel") [])
             (PStr "C1") eq_refl eq_refl) (PStr "denied")); reflexivity.
Defined.

(** X15.  [react] adds the reaction to the event itself: with [channel]
    and [ts] present it makes exactly one [reactions.add] call carrying
    the emoji as [name], the event's channel and the event's [ts] as
    [timestamp], and raises with the answer's error when the client
    refuses; when the event has no [ts] it raises [KeyError] and calls
    nothing. *)
Theorem react_behaviour {fmt : PyFormat} {items : ResponseItems} msg emoji w :
  (forall ch ts,
     let c := mkCall "reactions.add"
                (<["name" := emoji]> (<["channel" := ch]>
                   (<["timestamp" := ts]> ∅))) in
     Message.body msg !! "channel" = Some ch ->
     Message.body msg !! "ts" = Some ts ->
     (ok (respond (Message.sc msg) w c) = true ->
      MessageMore.react msg emoji w = (Returned tt, (w ++ [c])%list))
     /\ (forall err,
           ok (respond (Message.sc msg) w c) = false ->
           resp_item (respond (Message.sc msg) w c) "error" = Some err ->
           MessageMore.react msg emoji w
           = (Raised (Exception (py_str err)), (w ++ [c])%list)))
  /\ (forall ch,
        Message.body msg !! "channel" = Some ch ->
        Message.body msg !! "ts" = None ->
        MessageMore.react msg emoji w = (Raised (KeyError "ts"), w)).
Proof.
  unfold MessageMore.react, Message.channel_id, getitem. split.
  - intros ch ts -> ->. run_monad. unfold api_call. split.
    + by intros ->.
    + intros err -> Herr. cbn [negb]. unfold raise_error, getresp.
      run_monad. by rewrite Herr.
  - by intros ch -> ->.
Qed.

Lemma react_behaviour_witness :
  MessageMore.react (fmt := scalar_format) (items := sample_items)
    (sample_msg "hi" "channel") (PStr "tada") []
  = (Returned tt,
     [mkCall "reactions.add"
        (<["name" := PStr "tada"]> (<["channel" := PStr "C1"]>
           (<["timestamp" := PStr "1.0"]> ∅)))])
  /\ MessageMore.react (fmt := scalar_format) (items := sample_items)
       (failing_msg "hi" "channel") (PStr "tada") []
     = (Raised (Exception "denied"),
        [mkCall "reactions.add"
           (<["name" := PStr "tada"]> (<["channel" := PStr "C1"]>
              (<["timestamp" := PStr "1.0"]> ∅)))])
  /\ MessageMore.react (fmt := scalar_format) (items := sample_items)
       no_ts_msg (PStr "tada") []
     = (Raised (KeyError "ts"), []).
Proof.
  split; [|split].
  - apply (proj1 (proj1 (react_behaviour (fmt := scalar_format)
             (items := sample_items) (sample_msg "hi" "channel")
             (PStr "tada") []) (PStr "C1") (PStr "1.0") eq_refl eq_refl)).
    reflexivity.
  - apply (proj2 (proj1 (react_behaviour (fmt := scalar_format)
             (items := sample_items) (failing_msg "hi" "channel")
             (PStr "tada") []) (PStr "C1") (PStr "1.0") eq_refl eq_refl)
             (PStr "denied")); reflexivity.
  - apply (proj2 (react_behaviour (fmt := scalar_format)
             (items := sample_items) no_ts_msg (PStr "tada") [])
             (PStr "C1")); reflexivity.
Defined.

(* ===================================================================== *)
(** ** Further properties: what [parse_mention] and [match] return *)
(* ===================================================================== *)

















(** X19.  When the Slack client refuses the reply that carries a
    handler's string result, the refusal is handled like any other error
    of the dispatch: after the cleanup hook a second [chat.postMessage] is
    made in the same channel, whose text holds the refused answer's string
    form. *)
Theorem refused_reply_is_reported {fmt : PyFormat} b (msg : gmap string PyVal)
    text mentioned txt ct ch pre L post m s w w1 w2 :
  let m0 := Message.mk msg (Bot.sc b) in
  let c1 := reply_call m0 (PStr s) ∅ ch in
  let answer := respond (Bot.sc b) w1 c1 in
  let c2 := reply_call m0 (PStr (Bot.error_text (Exception (shown answer))))
              ∅ ch in
  msg !! "bot_id" = None ->
  msg !! "type" = Some (PStr "message") ->
  msg !! "text" = Some (PStr text) ->
  msg !! "channel_type" = Some ct ->
  msg !! "channel" = Some ch ->
  Dispatcher.parse_mention (Bot.dispatcher b) text = (mentioned, Some txt) ->
  Dispatcher.listeners (Bot.dispatcher b) = (pre ++ L :: post)%list ->
  Forall (fun l => fires l mentioned (py_eq_str ct "app_home") txt = None) pre ->
  fires L mentioned (py_eq_str ct "app_home") txt = Some m ->
  Listener.f L m0 (Re.groups m) w = (Returned (PStr s), w1) ->
  ok answer = false ->
  Bot.cleanup_on_exception b (w1 ++ [c1])%list = (Returned tt, w2) ->
  Bot.process_message b msg w = (reply_outcome m0 w2 c2, (w2 ++ [c2])%list).
Proof.
  intros m0 c1 answer c2 Hbot Hty Htext Hct Hch Hpm Hls Hpre HL Hf Hok Hhook.
  rewrite bot_process_message_run by done. fold m0.
  rewrite (process_message_scan _ m0 _ _ _ _ _ Hty Htext Hct Hpm), Hls.
  rewrite (scan_first_hit _ _ _ _ _ _ _ _ Hpre HL).
  rewrite (process_run _ _ _ _ _ _ Hf).
  rewrite (reply_run m0 _ _ ch) by done. fold c1.
  unfold reply_outcome at 1. cbn [Message.sc m0]. fold c1. fold answer.
  rewrite Hok. rewrite (bind_returned _ _ _ _ _ Hhook).
  by apply reply_run.
Qed.

Lemma refused_reply_is_reported_witness :
  let m0 := failing_msg "hi there" "channel" in
  Bot.process_message (fmt := scalar_format) (failing_bot [L_bye; L_two])
    (text_event "hi there" "channel") []
  = (Raised (Exception "{'ok': False, 'error': 'denied'}"),
     [reply_call m0 (PStr "two") ∅ (PStr "C1");
      reply_call m0
        (PStr "Что-то пошло не так: ```{'ok': False, 'error': 'denied'}```")
        ∅ (PStr "C1")]).
Proof.
  cbv zeta.
  apply (refused_reply_is_reported (fmt := scalar_format)
           (failing_bot [L_bye; L_two]) (text_event "hi there" "channel")
           "hi there" false "hi there" (PStr "channel") (PStr "C1")
           [L_bye] L_two [] (Re.mkMatch []) "two" [] []
           [reply_call (failing_msg "hi there" "channel") (PStr "two") ∅
              (PStr "C1")]); try reflexivity.
  repeat constructor.
Defined.

(* ===================================================================== *)
(** ** Further properties: how much the dispatcher itself says *)
(* ===================================================================== *)

Lemma no_reply msg w : at_most_one_reply msg w w.
Proof. exists []. rewrite app_nil_r. repeat split; [cbn; lia | constructor]. Qed.

Lemma reply_at_most_one msg text kw w :
  at_most_one_reply msg w (snd (Message.reply msg text kw w)).
Proof.
  destruct (Message.body msg !! "channel") as [ch|] eqn:Hch.
  - rewrite (reply_run _ _ _ _ _ Hch). exists [reply_call msg text kw ch].
    repeat split; [cbn; lia|]. constructor; [|constructor].
    split; [done|]. cbn [reply_call c_args]. by rewrite reply_args_channel.
  - unfold Message.reply, Message.channel_id, getitem. rewrite Hch.
    apply no_reply.
Qed.

Lemma reply_kw_at_most_one msg kw w :
  at_most_one_reply msg w (snd (Message.reply_kw msg kw w)).
Proof.
  unfold Message.reply_kw.
  destruct (kw !! "self"); [apply no_reply|].
  destruct (kw !! "text"); [apply reply_at_most_one | apply no_reply].
Qed.

Lemma process_at_most_one {fmt : PyFormat} l msg m w :
  quiet_on msg l ->
  at_most_one_reply msg w (snd (Listener.process l msg m w)).
Proof.
  intros Hquiet. specialize (Hquiet (Re.groups m) w).
  destruct (Listener.f l msg (Re.groups m) w) as [[v|e] w1] eqn:Hf;
    cbn [snd] in Hquiet; subst w1.
  - rewrite (process_run _ _ _ _ _ _ Hf).
    destruct v; try (destruct (truthy _); apply no_reply).
    + apply reply_at_most_one.
    + apply reply_kw_at_most_one.
  - unfold Listener.process. rewrite (bind_raised _ _ _ _ _ Hf).
    apply no_reply.
Qed.

Lemma scan_at_most_one {fmt : PyFormat} msg mentioned direct text ls w :
  Forall (quiet_on msg) ls ->
  at_most_one_reply msg w
    (snd (Dispatcher.scan msg mentioned direct text ls w)).
Proof.
  induction 1 as [|l ls Hl _ IH]; cbn [Dispatcher.scan].
  - destruct (mentioned || direct); [apply reply_at_most_one | apply no_reply].
  - destruct (_ && _); [done|]. destruct text as [txt|]; [|apply no_reply].
    destruct (Listener.match_ l txt); [by apply process_at_most_one | done].
Qed.

(** X20.  Whatever the event, the dispatcher itself makes at most one
    call per message, and that call is a [chat.postMessage] to the channel
    the event came from: with handlers that call nothing themselves, the
    log after [process_message] is the log before it plus at most one such
    call. *)
Theorem dispatch_says_at_most_once {fmt : PyFormat} d msg w :
  Forall (quiet_on msg) (Dispatcher.listeners d) ->
  at_most_one_reply msg w (snd (Dispatcher.process_message d msg w)).
Proof.
  intros Hquiet. unfold Dispatcher.process_message.
  destruct (negb (Message.is_text_message msg)); [apply no_reply|].
  unfold getitem.
  destruct (Message.body msg !! "text") as [v|]; [|apply no_reply].
  run_monad. destruct v; try apply no_reply.
  destruct (Dispatcher.parse_mention d s) as [mentioned text].
  destruct (Message.body msg !! "channel_type") as [ct|]; [|apply no_reply].
  by apply scan_at_most_one.
Qed.

Lemma dispatch_says_at_most_once_witness :
  at_most_one_reply (sample_msg "<@U123> hi there" "channel") []
    (snd (Dispatcher.process_message (fmt := scalar_format)
            (sample_dispatcher [L_bye; L_one; L_two])
            (sample_msg "<@U123> hi there" "channel") [])).
Proof.
  apply (dispatch_says_at_most_once (fmt := scalar_format)
           (sample_dispatcher [L_bye; L_one; L_two])
           (sample_msg "<@U123> hi there" "channel") []).
  repeat constructor.
Defined.

